(** * active24-go: the DNS record client, embedded and verified

    A shallow embedding of [active24/client.go] and [active24/dns.go]:
    the request signer, the request executor, the record operations and
    the pagination loop of [List].

    The file has two parts.  The first holds the definitions: the Go
    standard-library functions the client calls ([strings.TrimLeft],
    [path.Join], [url.ParseQuery], [hex.EncodeToString], [base64], [hmac],
    [sha1], the [omitempty] rule of [encoding/json]), transcribed from the
    Go sources; the data model and the functions of the client, in the
    order of the two files; the vocabulary of the statements; and scripted
    servers to run the client against.  The network, the clock, the JSON
    decoder of a list response and the order of a range over a map are
    the fields of the class [Platform].  The second part holds the facts.

    [int] is taken to be 64 bits wide, as on the platforms Go is mostly
    run on. *)

From Stdlib Require Import ZArith Ascii String List DecimalString Lia Bool.
From stdpp Require Import gmap strings list fin_maps.

Local Open Scope Z_scope.

(** ** Go's [int]: 64-bit, two's complement, wrapping on overflow *)

Module GoInt.

Definition min_int : Z := - 2 ^ 63.
Definition max_int : Z := 2 ^ 63 - 1.

Definition in_range (z : Z) : Prop := min_int <= z <= max_int.

Definition wrap (z : Z) : Z := (z + 2 ^ 63) mod 2 ^ 64 - 2 ^ 63.

Definition add (a b : Z) : Z := wrap (a + b).

End GoInt.

(** ** Slices: [nil] is distinguished from an empty, allocated slice *)

Definition slice (A : Type) : Type := option (list A).

Definition elems {A} (s : slice A) : list A := default [] s.

(** [append(s, xs...)]: appending nothing returns [s] itself, so a nil
    slice stays nil. *)
Definition append {A} (s : slice A) (xs : list A) : slice A :=
  match xs with
  | [] => s
  | _ :: _ => Some (elems s ++ xs)
  end.

(** ** Errors

    A Go [error] is an interface value; the client only ever compares one
    with [nil].  The constructors record where an error was made. *)

Inductive error : Type :=
| Errorf (msg : string)          (* fmt.Errorf *)
| EscapeError (s : string)       (* url.EscapeError *)
| ForeignError (msg : string).   (* net/http, io, encoding/json *)

(** ** Characters and byte strings *)

Definition slash : ascii := "/"%char.
Definition dquote : ascii := ascii_of_nat 34.

Definition byte_eqb (a b : ascii) : bool := Ascii.eqb a b.

Definition nonempty (s : string) : bool := negb (String.eqb s EmptyString).

Fixpoint list_of_string (s : string) : list ascii :=
  match s with
  | EmptyString => []
  | String c s' => c :: list_of_string s'
  end.

Fixpoint string_of_list (l : list ascii) : string :=
  match l with
  | [] => EmptyString
  | c :: l' => String c (string_of_list l')
  end.

Definition byte_val (c : ascii) : Z := Z.of_N (N_of_ascii c).
Definition byte_of (z : Z) : ascii := ascii_of_N (Z.to_N (z mod 256)).

(** ** Package [strings] *)

Module strings.

Fixpoint ContainsByte (s : string) (c : ascii) : bool :=
  match s with
  | EmptyString => false
  | String d s' => byte_eqb d c || ContainsByte s' c
  end.

(** [strings.TrimLeft(s, cutset)]: drop the longest prefix of [s] made of
    characters of [cutset]. *)
Fixpoint TrimLeft (s cutset : string) : string :=
  match s with
  | EmptyString => EmptyString
  | String c s' => if ContainsByte cutset c then TrimLeft s' cutset else s
  end.

(** [strings.Cut(s, sep)] for a one-byte separator. *)
Fixpoint CutByte (s : string) (sep : ascii) : string * string * bool :=
  match s with
  | EmptyString => (EmptyString, EmptyString, false)
  | String c s' =>
      if byte_eqb c sep then (EmptyString, s', true)
      else let '(before, after, found) := CutByte s' sep in
           (String c before, after, found)
  end.

(** [strings.Split(s, sep)] for a one-byte separator: never empty. *)
Fixpoint SplitByte (s : string) (sep : ascii) : list string :=
  match s with
  | EmptyString => [EmptyString]
  | String c s' =>
      if byte_eqb c sep then EmptyString :: SplitByte s' sep
      else match SplitByte s' sep with
           | [] => [String c EmptyString]
           | e :: es => String c e :: es
           end
  end.

End strings.

(** ** Package [strconv] *)

Module strconv.

Definition Itoa (z : Z) : string := NilZero.string_of_int (Z.to_int z).

End strconv.

(** [fmt.Sprintf("%d", z)] prints like [strconv.Itoa]. *)
Definition fmt_d (z : Z) : string := strconv.Itoa z.

(** ** Package [path]

    [path.Clean] reads the path one slash-separated element at a time and
    writes into a buffer [out]; [dotdot] is the length of the prefix of [out]
    that a [..] element may not remove. *)

Module path.

(** The backtracking of a [..] element over a buffer of length [w]:
    [out.w--; for out.w > dotdot && out.index(out.w) != '/' { out.w-- }]. *)
Fixpoint backtrack (out : list ascii) (dotdot w : nat) : nat :=
  match w with
  | O => O
  | S w' =>
      if (dotdot <? w')%nat && negb (byte_eqb (nth w' out slash) slash)
      then backtrack out dotdot w'
      else w'
  end.

Definition clean_element (rooted : bool) (st : list ascii * nat) (e : string)
  : list ascii * nat :=
  let '(out, dotdot) := st in
  if String.eqb e "" then st                      (* empty path element *)
  else if String.eqb e "." then st                (* . element *)
  else if String.eqb e ".." then                  (* .. element *)
    if (dotdot <? length out)%nat then
      (take (backtrack out dotdot (length out)) out, dotdot)
    else if negb rooted then
      let out1 := if (0 <? length out)%nat then out ++ [slash] else out in
      let out2 := out1 ++ ["."%char; "."%char] in
      (out2, length out2)
    else st
  else                                            (* real path element *)
    let out1 :=
      if (rooted && negb (length out =? 1)%nat)
         || (negb rooted && negb (length out =? 0)%nat)
      then out ++ [slash] else out in
    (out1 ++ list_of_string e, dotdot).

Definition Clean (p : string) : string :=
  match p with
  | EmptyString => "."
  | String c rest =>
      let rooted := byte_eqb c slash in
      let start := if rooted then ([slash], 1%nat) else ([], 0%nat) in
      let unread := if rooted then rest else p in
      let '(out, _) :=
        fold_left (clean_element rooted) (strings.SplitByte unread slash) start in
      if (length out =? 0)%nat then "." else string_of_list out
  end.

(** The loop of [path.Join] over its arguments. *)
Definition join_step (buf e : string) : string :=
  if (0 <? String.length buf)%nat || nonempty e then
    (if (0 <? String.length buf)%nat then buf +:+ "/" else buf) +:+ e
  else buf.

Definition Join (elem : list string) : string :=
  let size := fold_left (fun n e => (n + String.length e)%nat) elem 0%nat in
  if (size =? 0)%nat then ""
  else Clean (fold_left join_step elem "").

End path.

(** ** Package [net/url] *)

Module url.

(** [url.Values] is [map[string][]string]. *)
Abbreviation Values := (gmap string (list string)).

(** [v[key] = append(v[key], value)] *)
Definition Add (v : Values) (key value : string) : Values :=
  <[key := default [] (v !! key) ++ [value]]> v.

Definition ishex (c : ascii) : bool :=
  let n := byte_val c in
  ((48 <=? n) && (n <=? 57)) || ((97 <=? n) && (n <=? 102))
  || ((65 <=? n) && (n <=? 70)).

Definition unhex (c : ascii) : Z :=
  let n := byte_val c in
  if (48 <=? n) && (n <=? 57) then n - 48
  else if (97 <=? n) && (n <=? 102) then n - 97 + 10
  else if (65 <=? n) && (n <=? 70) then n - 65 + 10
  else 0.

Definition first3 (s : string) : string := String.substring 0 3 s.

(** [url.QueryUnescape]: [%XX] becomes the byte [XX], [+] becomes a space;
    the first malformed escape is the error. *)
Fixpoint QueryUnescape (s : string) : string + error :=
  match s with
  | EmptyString => inl EmptyString
  | String c rest =>
      if byte_eqb c "%" then
        match rest with
        | String h1 (String h2 rest') =>
            if ishex h1 && ishex h2 then
              match QueryUnescape rest' with
              | inl t => inl (String (byte_of (Z.lor (Z.shiftl (unhex h1) 4) (unhex h2))) t)
              | inr e => inr e
              end
            else inr (EscapeError (first3 s))
        | _ => inr (EscapeError (first3 s))
        end
      else
        match QueryUnescape rest with
        | inl t => inl (String (if byte_eqb c "+" then " "%char else c) t)
        | inr e => inr e
        end
  end.

(** One turn of the loop of [parseQuery], on the segment before the next
    [&]; the loop visits the [&]-separated segments from left to right. *)
Definition parseQuery_segment (st : Values * option error) (key : string)
  : Values * option error :=
  let '(m, err) := st in
  if strings.ContainsByte key ";" then
    (m, Some (Errorf "invalid semicolon separator in query"))
  else if String.eqb key "" then st
  else
    let '(key, value, _) := strings.CutByte key "=" in
    match QueryUnescape key with
    | inr err1 => (m, if err is Some _ then err else Some err1)
    | inl key =>
        match QueryUnescape value with
        | inr err1 => (m, if err is Some _ then err else Some err1)
        | inl value => (Add m key value, err)
        end
    end.

Definition ParseQuery (query : string) : Values * option error :=
  fold_left parseQuery_segment (strings.SplitByte query "&") (∅, None).

End url.

(** ** Package [encoding/hex] *)

Module hex.

Definition hextable : string := "0123456789abcdef".

Definition digit (n : Z) : ascii :=
  default "0"%char (String.get (Z.to_nat n) hextable).

Fixpoint Encode (src : list ascii) : list ascii :=
  match src with
  | [] => []
  | v :: src' =>
      digit (Z.shiftr (byte_val v) 4) :: digit (Z.land (byte_val v) 15)
      :: Encode src'
  end.

Definition EncodeToString (src : list ascii) : string :=
  string_of_list (Encode src).

(** [fromHexChar] and [hex.DecodeString], used to state what an encoding
    denotes. *)
Definition fromHexChar (c : ascii) : option Z :=
  let n := byte_val c in
  if (48 <=? n) && (n <=? 57) then Some (n - 48)
  else if (97 <=? n) && (n <=? 102) then Some (n - 97 + 10)
  else if (65 <=? n) && (n <=? 70) then Some (n - 65 + 10)
  else None.

Fixpoint Decode (src : list ascii) : option (list ascii) :=
  match src with
  | [] => Some []
  | p :: q :: src' =>
      match fromHexChar p, fromHexChar q, Decode src' with
      | Some a, Some b, Some out => Some (byte_of (Z.lor (Z.shiftl a 4) b) :: out)
      | _, _, _ => None
      end
  | [_] => None
  end.

Definition DecodeString (s : string) : option (list ascii) :=
  Decode (list_of_string s).

Definition is_lower_hex (c : ascii) : bool :=
  let n := byte_val c in
  ((48 <=? n) && (n <=? 57)) || ((97 <=? n) && (n <=? 102)).

End hex.

(** ** Package [encoding/base64], the standard padded encoding *)

Module base64.

Definition encodeStd : string :=
  "ABCDEFGHIJKLMNOPQRSTUVWXYZabcdefghijklmnopqrstuvwxyz0123456789+/".

Definition enc (n : Z) : ascii :=
  default "="%char (String.get (Z.to_nat (Z.land n 63)) encodeStd).

Fixpoint Encode (src : list Z) : list ascii :=
  match src with
  | [] => []
  | [b0] =>
      [enc (Z.shiftr b0 2); enc (Z.shiftl b0 4); "="%char; "="%char]
  | [b0; b1] =>
      [enc (Z.shiftr b0 2);
       enc (Z.lor (Z.shiftl b0 4) (Z.shiftr b1 4));
       enc (Z.shiftl b1 2); "="%char]
  | b0 :: b1 :: b2 :: src' =>
      enc (Z.shiftr b0 2)
      :: enc (Z.lor (Z.shiftl b0 4) (Z.shiftr b1 4))
      :: enc (Z.lor (Z.shiftl b1 2) (Z.shiftr b2 6))
      :: enc b2 :: Encode src'
  end.

Definition EncodeToString (s : string) : string :=
  string_of_list (Encode (map byte_val (list_of_string s))).

End base64.

(** ** Package [crypto/sha1]

    32-bit words are [Z] reduced modulo [2^32] after every addition and
    rotation.  A digest object is the sequence of bytes written to it. *)

Module sha1.

Definition Size : nat := 20.
Definition BlockSize : nat := 64.

Definition w32 (z : Z) : Z := z mod 2 ^ 32.

Definition rotl (x n : Z) : Z :=
  w32 (Z.lor (Z.shiftl x n) (Z.shiftr x (32 - n))).

Definition not32 (x : Z) : Z := Z.lxor x (2 ^ 32 - 1).

(** Big-endian bytes of a word, most significant first. *)
Fixpoint be_bytes (n : nat) (z : Z) : list Z :=
  match n with
  | O => []
  | S n' => Z.land (Z.shiftr z (8 * Z.of_nat n')) 255 :: be_bytes n' z
  end.

Fixpoint be_words (bs : list Z) : list Z :=
  match bs with
  | b0 :: b1 :: b2 :: b3 :: bs' =>
      Z.lor (Z.lor (Z.shiftl b0 24) (Z.shiftl b1 16)) (Z.lor (Z.shiftl b2 8) b3)
      :: be_words bs'
  | _ => []
  end.

(** The padding of [checkSum]: [0x80], zeros up to 56 modulo 64, then the
    length in bits as a [uint64]. *)
Definition padding (len : Z) : list Z :=
  let t := if len mod 64 <? 56 then 56 - len mod 64 else 64 + 56 - len mod 64 in
  128 :: repeat 0 (Z.to_nat (t - 1)) ++ be_bytes 8 ((len * 8) mod 2 ^ 64).

(** The message schedule: [w[i]] for [i] from 16 to 79. *)
Fixpoint schedule (n : nat) (w : list Z) : list Z :=
  match n with
  | O => w
  | S n' =>
      let i := length w in
      let x := Z.lxor (Z.lxor (nth (i - 3) w 0) (nth (i - 8) w 0))
                      (Z.lxor (nth (i - 14) w 0) (nth (i - 16) w 0)) in
      schedule n' (w ++ [rotl x 1])
  end.

Definition K0 : Z := 1518500249.   (* 0x5A827999 *)
Definition K1 : Z := 1859775393.   (* 0x6ED9EBA1 *)
Definition K2 : Z := 2400959708.   (* 0x8F1BBCDC *)
Definition K3 : Z := 3395469782.   (* 0xCA62C1D6 *)

Definition init0 : Z := 1732584193.  (* 0x67452301 *)
Definition init1 : Z := 4023233417.  (* 0xEFCDAB89 *)
Definition init2 : Z := 2562383102.  (* 0x98BADCFE *)
Definition init3 : Z := 271733878.   (* 0x10325476 *)
Definition init4 : Z := 3285377520.  (* 0xC3D2E1F0 *)

Record digest := { h0 : Z; h1 : Z; h2 : Z; h3 : Z; h4 : Z }.

Definition round (i : nat) (wi : Z) (v : digest) : digest :=
  let '(a, b, c, d, e) := (h0 v, h1 v, h2 v, h3 v, h4 v) in
  let '(f, k) :=
    if (i <? 20)%nat then (Z.lor (Z.land b c) (Z.land (not32 b) d), K0)
    else if (i <? 40)%nat then (Z.lxor (Z.lxor b c) d, K1)
    else if (i <? 60)%nat then
      (Z.lor (Z.lor (Z.land b c) (Z.land b d)) (Z.land c d), K2)
    else (Z.lxor (Z.lxor b c) d, K3) in
  let t := w32 (rotl a 5 + f + e + wi + k) in
  {| h0 := t; h1 := a; h2 := rotl b 30; h3 := c; h4 := d |}.

Fixpoint rounds (i : nat) (w : list Z) (v : digest) : digest :=
  match w with
  | [] => v
  | wi :: w' => rounds (S i) w' (round i wi v)
  end.

Definition block (h : digest) (p : list Z) : digest :=
  let v := rounds 0 (schedule 64 (be_words p)) h in
  {| h0 := w32 (h0 h + h0 v); h1 := w32 (h1 h + h1 v); h2 := w32 (h2 h + h2 v);
     h3 := w32 (h3 h + h3 v); h4 := w32 (h4 h + h4 v) |}.

Fixpoint blocks (n : nat) (h : digest) (p : list Z) : digest :=
  match n with
  | O => h
  | S n' => blocks n' (block h (take 64 p)) (drop 64 p)
  end.

(** [sha1.Sum(data)] *)
Definition Sum (data : list ascii) : list ascii :=
  let p := map byte_val data ++ padding (Z.of_nat (length data)) in
  let h := blocks (length p / 64)
             {| h0 := init0; h1 := init1; h2 := init2; h3 := init3; h4 := init4 |}
             p in
  map byte_of
    (be_bytes 4 (h0 h) ++ be_bytes 4 (h1 h) ++ be_bytes 4 (h2 h)
     ++ be_bytes 4 (h3 h) ++ be_bytes 4 (h4 h)).

End sha1.

(** ** Package [crypto/hmac], instantiated with SHA-1 as [getSignature] does *)

Module hmac.

(** The [hmac] object: the two pads and the bytes written to the inner
    hash so far. *)
Record t := { opad : list ascii; ipad : list ascii; inner : list ascii }.

Definition xor_pad (c : Z) (key : list ascii) : list ascii :=
  map (fun b => byte_of (Z.lxor (byte_val b) c))
      (key ++ repeat (byte_of 0) (sha1.BlockSize - length key)).

(** [hmac.New(sha1.New, key)] *)
Definition New (key : list ascii) : t :=
  let key := if (sha1.BlockSize <? length key)%nat then sha1.Sum key else key in
  let ipad := xor_pad 54 key in        (* 0x36 *)
  let opad := xor_pad 92 key in        (* 0x5c *)
  {| opad := opad; ipad := ipad; inner := ipad |}.

(** [h.Write(p)] *)
Definition Write (h : t) (p : list ascii) : t :=
  {| opad := opad h; ipad := ipad h; inner := inner h ++ p |}.

(** [h.Sum(in)] *)
Definition Sum (h : t) (b : list ascii) : list ascii :=
  let inner_sum := sha1.Sum (inner h) in
  b ++ sha1.Sum (opad h ++ inner_sum).

(** The keyed hash as RFC 2104 words it:
    [H((K xor opad) || H((K xor ipad) || text))], with a key longer than a
    block replaced by its hash. *)
Definition HMAC_SHA1 (key text : list ascii) : list ascii :=
  let K := if (sha1.BlockSize <? length key)%nat then sha1.Sum key else key in
  sha1.Sum (xor_pad 92 K ++ sha1.Sum (xor_pad 54 K ++ text)).

End hmac.

(** ** Package [encoding/json]: how a tagged struct is written *)

Module json.

#[local] Unset Elimination Schemes.
Inductive Value : Type :=
| Null
| Number (z : Z)
| Str (s : string)
| Array (items : list Value)
| Object (members : list (string * Value)).
#[local] Set Elimination Schemes.

(** A struct tag [`json:"name,omitempty"`]. *)
Record tag := { name : string; omitempty : bool }.

(** The Go value held by a field of the structs of this client. *)
Inductive field : Type :=
| PtrString (p : option string)
| PtrInt (p : option Z)
| ValString (s : string)
| ValInt (z : Z).

(** [isEmptyValue]: a nil pointer, an empty string, a zero number. *)
Definition isEmptyValue (f : field) : bool :=
  match f with
  | PtrString None | PtrInt None => true
  | PtrString (Some _) | PtrInt (Some _) => false
  | ValString s => String.eqb s ""
  | ValInt z => z =? 0
  end.

Definition encode_field (f : field) : Value :=
  match f with
  | PtrString None | PtrInt None => Null
  | PtrString (Some s) | ValString s => Str s
  | PtrInt (Some z) | ValInt z => Number z
  end.

(** The struct encoder: fields in declaration order; an [omitempty] field
    holding an empty value is skipped. *)
Fixpoint encode_struct (fields : list (tag * field)) : list (string * Value) :=
  match fields with
  | [] => []
  | (t, f) :: fields' =>
      if omitempty t && isEmptyValue f then encode_struct fields'
      else (name t, encode_field f) :: encode_struct fields'
  end.

Definition keys (v : Value) : list string :=
  match v with
  | Object members => map fst members
  | _ => []
  end.

End json.

(** ** Package [net/http] *)

Module http.

Definition MethodGet : string := "GET".
Definition MethodPost : string := "POST".
Definition MethodDelete : string := "DELETE".

(** A response: its status code and what [io.ReadAll(resp.Body)] yields. *)
Record Response := { StatusCode : Z; Body : string * option error }.

(** A request as the client hands it to the transport.  [RawQuery] holds
    the [url.Values] that the client encodes into the query string; [Payload]
    is the JSON document in the body reader. *)
Record Request := {
  Method : string;
  URL : string;
  RawQuery : url.Values;
  Header : gmap string (list string);
  Payload : option json.Value
}.

(** What [Client.Do] returns: a response and no error, or an error, with
    which a response may come. *)
Inductive Result : Type :=
| Replied (resp : Response)
| Failed (resp : option Response) (err : error).

Definition resp_of (r : Result) : option Response :=
  match r with
  | Replied resp => Some resp
  | Failed resp _ => resp
  end.

Definition err_of (r : Result) : option error :=
  match r with
  | Replied _ => None
  | Failed _ err => Some err
  end.

Definition set_RawQuery (r : Request) (q : url.Values) : Request :=
  {| Method := Method r; URL := URL r; RawQuery := q; Header := Header r;
     Payload := Payload r |}.

(** [r.Header.Set(key, value)] for a key already in canonical form. *)
Definition Header_Set (r : Request) (key value : string) : Request :=
  {| Method := Method r; URL := URL r; RawQuery := RawQuery r;
     Header := <[key := [value]]> (Header r); Payload := Payload r |}.

Definition basicAuth (username password : string) : string :=
  base64.EncodeToString (username +:+ ":" +:+ password).

Definition SetBasicAuth (r : Request) (username password : string) : Request :=
  Header_Set r "Authorization" ("Basic " +:+ basicAuth username password).

End http.

(** ** The data model of [dns.go] *)

Definition DnsRecordType : Type := string.

Definition DnsRecordTypeA : DnsRecordType := "A".
Definition DnsRecordTypeAAAA : DnsRecordType := "AAAA".
Definition DnsRecordTypeANAME : DnsRecordType := "ANAME".
Definition DnsRecordTypeCAA : DnsRecordType := "CAA".
Definition DnsRecordTypeCNAME : DnsRecordType := "CNAME".
Definition DnsRecordTypeMX : DnsRecordType := "MX".
Definition DnsRecordTypeSRV : DnsRecordType := "SRV".
Definition DnsRecordTypeTXT : DnsRecordType := "TXT".
Definition DnsRecordTypeCERT : DnsRecordType := "CERT".
Definition DnsRecordTypeLOC : DnsRecordType := "LOC".
Definition DnsRecordTypeSSHFP : DnsRecordType := "SSHFP".
Definition DnsRecordTypeTLSA : DnsRecordType := "TLSA".
Definition DnsRecordTypeDS : DnsRecordType := "DS".
Definition DnsRecordTypeNS : DnsRecordType := "NS".

(** [Type_] is the field [Type]; a pointer field is an [option]. *)
Record DnsRecord := {
  Type_ : option string;
  ID : option Z;
  Name : string;
  Content : option string;
  Ttl : Z;
  Priority : option Z;
  Port : option Z;
  Weight : option Z
}.

Record DnsRecordPaginatedCollection := {
  CurrentPage : option Z;
  TotalPages : option Z;
  TotalRecords : option Z;
  RowsPerPage : option Z;
  NextPageUrl : option string;
  Data : slice DnsRecord
}.

(** The zero value of [var ret DnsRecordPaginatedCollection]. *)
Definition zero_collection : DnsRecordPaginatedCollection :=
  {| CurrentPage := None; TotalPages := None; TotalRecords := None;
     RowsPerPage := None; NextPageUrl := None; Data := None |}.

(** The fields of [DnsRecord] with their tags, in declaration order. *)
Definition DnsRecord_fields (r : DnsRecord) : list (json.tag * json.field) :=
  [ ({| json.name := "type"; json.omitempty := true |}, json.PtrString (Type_ r));
    ({| json.name := "id"; json.omitempty := true |}, json.PtrInt (ID r));
    ({| json.name := "name"; json.omitempty := false |}, json.ValString (Name r));
    ({| json.name := "content"; json.omitempty := true |}, json.PtrString (Content r));
    ({| json.name := "ttl"; json.omitempty := false |}, json.ValInt (Ttl r));
    ({| json.name := "priority"; json.omitempty := true |}, json.PtrInt (Priority r));
    ({| json.name := "port"; json.omitempty := true |}, json.PtrInt (Port r));
    ({| json.name := "weight"; json.omitempty := true |}, json.PtrInt (Weight r)) ].

(** [json.Marshal(r)] for [r *DnsRecord]: a nil pointer is written [null]. *)
Definition Marshal_DnsRecord (r : option DnsRecord) : json.Value :=
  match r with
  | None => json.Null
  | Some r => json.Object (json.encode_struct (DnsRecord_fields r))
  end.

(** ** The data model of [client.go] *)

(** [helper], without its logger; [c_Timeout] is [c.Timeout] in
    nanoseconds. *)
Record helper := {
  apiEndpoint : string;
  authKey : string;
  authSecret : string;
  c_Timeout : Z;
  maxPages : Z
}.

Record client := { client_h : helper }.

Inductive Option : Type :=
| ApiEndpoint (ep : string)
| Timeout (to : Z).

Definition apply_Option (c : client) (opt : Option) : client :=
  let ch := client_h c in
  match opt with
  | ApiEndpoint ep =>
      {| client_h := {| apiEndpoint := ep; authKey := authKey ch;
                        authSecret := authSecret ch; c_Timeout := c_Timeout ch;
                        maxPages := maxPages ch |} |}
  | Timeout to =>
      {| client_h := {| apiEndpoint := apiEndpoint ch; authKey := authKey ch;
                        authSecret := authSecret ch; c_Timeout := to;
                        maxPages := maxPages ch |} |}
  end.

Definition New (apiKey apiSecret : string) (opts : list Option) : client :=
  fold_left apply_Option opts
    {| client_h := {| apiEndpoint := "https://rest.active24.cz";
                      authKey := apiKey;
                      authSecret := apiSecret;
                      c_Timeout := 10 * 1000000000;
                      maxPages := 100 |} |}.

Record apiError := { err : error; resp : option http.Response }.

(** The interface [ApiError]; [None] is the nil interface. *)
Definition ApiError : Type := option apiError.

Definition apiError_Error (a : apiError) : error := err a.
Definition apiError_Response (a : apiError) : option http.Response := resp a.

Definition apiErr (resp : option http.Response) (err : option error) : ApiError :=
  match err with
  | None => None
  | Some e => Some {| err := e; resp := resp |}
  end.

Definition getSignature (message key : string) : string :=
  let h := hmac.New (list_of_string key) in
  let h := hmac.Write h (list_of_string message) in
  hex.EncodeToString (hmac.Sum h []).

Record dns := { dns_h : helper }.

Definition Dns (c : client) : dns := {| dns_h := client_h c |}.

Record domainAction := { h : helper; svcID : Z }.

Definition With (d : dns) (serviceID : Z) : domainAction :=
  {| h := dns_h d; svcID := serviceID |}.

(** ** The outside world

    The clock, the HTTP transport, the JSON decoder of a list response
    and the order in which Go ranges over a map are not code of the
    client.  [Env] is the state of the world they read and change. *)

Definition in_range_opt (o : option Z) : Prop :=
  match o with
  | Some z => GoInt.in_range z
  | None => True
  end.

Class Platform := {
  Env : Type;
  Time : Type;
  (* time.Now() *)
  time_Now : Env -> Time * Env;
  (* t.Unix() *)
  Time_Unix : Time -> Z;
  (* t.UTC().Format(time.RFC3339) *)
  Time_UTC_Format_RFC3339 : Time -> string;
  (* the error of http.NewRequest(method, url, body), if any *)
  NewRequest_error : string -> string -> option error;
  (* (&http.Client{Timeout: timeout}).Do(r) *)
  Client_Do : Z -> http.Request -> Env -> http.Result * Env;
  (* json.Unmarshal(body, &ret) on a zero ret: ret afterwards, and the error *)
  Unmarshal_collection : string -> DnsRecordPaginatedCollection * option error;
  (* the entry a range over a map visits first *)
  range_first : Env -> url.Values -> option (string * list string);
  range_first_elem :
    forall e (m : url.Values) k v, range_first e m = Some (k, v) -> m !! k = Some v;
  range_first_empty :
    forall e (m : url.Values), range_first e m = None -> m = ∅;
  (* a decoded int is an int *)
  Unmarshal_in_range :
    forall body,
      in_range_opt (CurrentPage (Unmarshal_collection body).1)
      /\ in_range_opt (TotalPages (Unmarshal_collection body).1)
}.

Section Client.

Context {P : Platform}.

(** The world of a run: the environment, and the requests handed to the
    transport so far (a record kept for the proofs; no code reads it). *)
Record World := { env : Env; wire : list http.Request }.

Definition IO (A : Type) : Type := World -> A * World.

Definition pure {A} (a : A) : IO A := fun w => (a, w).

Definition bind {A B} (m : IO A) (k : A -> IO B) : IO B :=
  fun w => let '(a, w') := m w in k a w'.

Notation "'let*' x ':=' m 'in' k" := (bind m (fun x => k))
  (at level 10, x pattern, m at level 100, k at level 200, only parsing).

Definition now : IO Time :=
  fun w => let '(t, e) := time_Now (env w) in (t, {| env := e; wire := wire w |}).

Definition range : url.Values -> IO (option (string * list string)) :=
  fun m w => (range_first (env w) m, w).

(** [ch.c.Do(r)] *)
Definition c_Do (ch : helper) (r : http.Request) : IO http.Result :=
  fun w => let '(res, e) := Client_Do (c_Timeout ch) r (env w) in
           (res, {| env := e; wire := wire w ++ [r] |}).

(** [http.NewRequest]: an empty method means GET. *)
Definition NewRequest (method url : string) (body : option json.Value)
  : http.Request + error :=
  match NewRequest_error method url with
  | Some err => inr err
  | None =>
      inl {| http.Method := if nonempty method then method else "GET";
             http.URL := url;
             http.RawQuery := ∅;
             http.Header := ∅;
             http.Payload := body |}
  end.

Definition doWithParams (ch : helper) (reqMethod reqPath : string)
    (reqParams : url.Values) (reqBody : option json.Value) : IO http.Result :=
  let reqPath := path.Join ["/"; reqPath] in
  let* reqTimestamp := now in
  let canonicalRequest :=
    reqMethod +:+ " " +:+ reqPath +:+ " " +:+ fmt_d (Time_Unix reqTimestamp) in
  let authSignature := getSignature canonicalRequest (authSecret ch) in
  match NewRequest reqMethod (apiEndpoint ch +:+ reqPath) reqBody with
  | inr err => pure (http.Failed None err)
  | inl r =>
      let r := http.set_RawQuery r reqParams in
      let r := http.Header_Set r "Content-Type" "application/json" in
      let r := http.Header_Set r "Accept" "application/json" in
      let r := http.Header_Set r "Date" (Time_UTC_Format_RFC3339 reqTimestamp) in
      let r := http.SetBasicAuth r (authKey ch) authSignature in
      c_Do ch r
  end.

Definition do (ch : helper) (reqMethod reqPath : string)
    (reqBody : option json.Value) : IO http.Result :=
  doWithParams ch reqMethod reqPath ∅ reqBody.

(** [fmt.Sprintf("v2/service/%d/dns/record", d.svcID)] *)
Definition record_collection_path (d : domainAction) : string :=
  "v2/service/" +:+ fmt_d (svcID d) +:+ "/dns/record".

(** [fmt.Sprintf("v2/service/%d/dns/record/%d", d.svcID, recordID)] *)
Definition record_path (d : domainAction) (recordID : Z) : string :=
  "v2/service/" +:+ fmt_d (svcID d) +:+ "/dns/record/" +:+ fmt_d recordID.

(** [fmt.Sprintf("[\"%s\"]", recType)] *)
Definition type_filter (recType : DnsRecordType) : string :=
  "[" +:+ String dquote (recType +:+ String dquote "]").

(** The parameters every page request starts from. *)
Definition filter_params (recType : DnsRecordType) (recName : string) : url.Values :=
  let reqParams : url.Values := ∅ in
  let reqParams := url.Add reqParams "descending" "false" in
  let reqParams := url.Add reqParams "sortBy" "name" in
  let reqParams :=
    if nonempty recType then url.Add reqParams "filters[type]" (type_filter recType)
    else reqParams in
  if nonempty recName then url.Add reqParams "filters[name]" recName
  else reqParams.

(** The body of [for k, v := range recPageUrlValues { ...; break }] on the
    entry visited first. *)
Definition add_first (reqParams : url.Values) (first : option (string * list string))
  : url.Values * bool :=
  match first with
  | Some (k, v0 :: _) =>
      if nonempty k && nonempty v0 then (url.Add reqParams k v0, true)
      else (reqParams, false)
  | _ => (reqParams, false)
  end.

Definition ListPaginated (d : domainAction) (recType : DnsRecordType)
    (recName recPageUrl : string) (recPage : Z)
  : IO (DnsRecordPaginatedCollection * ApiError) :=
  let reqParams := filter_params recType recName in
  let ret := zero_collection in
  let '(recPageUrlValues, err) :=
    if nonempty recPageUrl then url.ParseQuery recPageUrl else (∅, None) in
  match err with
  | Some err => pure (ret, apiErr None (Some err))
  | None =>
      let* first :=
        (if nonempty recPageUrl then range recPageUrlValues else pure None) in
      let '(reqParams, hasRecPageUrl) := add_first reqParams first in
      let reqParams :=
        if negb hasRecPageUrl && (1 <? recPage)
        then url.Add reqParams "page" (strconv.Itoa recPage)
        else reqParams in
      let* res :=
        doWithParams (h d) http.MethodGet (record_collection_path d) reqParams None in
      match res with
      | http.Failed _ err => pure (ret, apiErr None (Some err))
      | http.Replied resp =>
          if (399 <? http.StatusCode resp) && (http.StatusCode resp <? 600) then
            pure (ret, apiErr (Some resp)
                         (Some (Errorf ("invalid response from API: "
                                        +:+ fmt_d (http.StatusCode resp)))))
          else
            match http.Body resp with
            | (_, Some err) => pure (ret, apiErr (Some resp) (Some err))
            | (body, None) =>
                let '(ret, err) := Unmarshal_collection body in
                match err with
                | Some err => pure (ret, apiErr (Some resp) (Some err))
                | None => pure (ret, apiErr (Some resp) None)
                end
            end
      end
  end.

(** The [switch] of [ListPage]: the next-page locator first, the page
    numbers only if there is none. *)
Definition next_page (ret : DnsRecordPaginatedCollection) : string * Z :=
  let by_number :=
    match CurrentPage ret, TotalPages ret with
    | Some currentPage, Some totalPages =>
        if currentPage <? totalPages then (EmptyString, GoInt.add currentPage 1)
        else (EmptyString, 0)
    | _, _ => (EmptyString, 0)
    end in
  match NextPageUrl ret with
  | Some nextPageUrl =>
      if nonempty nextPageUrl then (strings.TrimLeft nextPageUrl "/?", 0)
      else by_number
  | None => by_number
  end.

Definition ListPage (d : domainAction) (recType : DnsRecordType)
    (recName recPageUrl : string) (recPage : Z)
  : IO (slice DnsRecord * string * Z * ApiError) :=
  let* (ret, err) := ListPaginated d recType recName recPageUrl recPage in
  match err with
  | Some _ => pure (None, EmptyString, 0, err)
  | None =>
      let '(nextPageUrl, nextPage) := next_page ret in
      pure (Data ret, nextPageUrl, nextPage, err)
  end.

Definition page_limit_error (d : domainAction) : error :=
  Errorf ("maximum page limit reached in List, partial result returned, maxPages: "
          +:+ fmt_d (maxPages (h d))
          +:+ ", increase the limit in the configuration").

(** The [for] loop of [List] and the statements after it.  [fuel] bounds
    the number of turns; [None] is returned when it runs out. *)
Fixpoint List_loop (fuel : nat) (d : domainAction) (recType : DnsRecordType)
    (recName : string) (allRecords : slice DnsRecord) (nextPageUrl : string)
    (nextPage pageCount : Z) : IO (option (slice DnsRecord * ApiError)) :=
  if ((pageCount =? 1) || nonempty nextPageUrl || (0 <? nextPage))
     && (pageCount <=? maxPages (h d))
  then
    match fuel with
    | O => pure None
    | S fuel' =>
        let* (pageRecords, nextPageUrl, nextPage, err) :=
          ListPage d recType recName nextPageUrl nextPage in
        match err with
        | Some _ => pure (Some (None, err))
        | None =>
            List_loop fuel' d recType recName
              (append allRecords (elems pageRecords)) nextPageUrl nextPage
              (GoInt.add pageCount 1)
        end
    end
  else if (maxPages (h d) <? pageCount)
          && (nonempty nextPageUrl || (maxPages (h d) <? nextPage))
  then pure (Some (allRecords, apiErr None (Some (page_limit_error d))))
  else pure (Some (allRecords, None)).

Definition List (fuel : nat) (d : domainAction) (recType : DnsRecordType)
    (recName : string) : IO (option (slice DnsRecord * ApiError)) :=
  List_loop fuel d recType recName None EmptyString 0 1.

Definition ListAll (fuel : nat) (d : domainAction)
  : IO (option (slice DnsRecord * ApiError)) :=
  List fuel d "" "".

Definition Create (d : domainAction) (r : option DnsRecord) : IO ApiError :=
  let data := Marshal_DnsRecord r in
  let* res := do (h d) http.MethodPost (record_collection_path d) (Some data) in
  pure (apiErr (http.resp_of res) (http.err_of res)).

Definition change (d : domainAction) (method : string) (recordID : Z)
    (r : option DnsRecord) : IO http.Result :=
  let data := Marshal_DnsRecord r in
  do (h d) method (record_path d recordID) (Some data).


Definition Delete (d : domainAction) (ID : Z) : IO ApiError :=
  let* res := do (h d) http.MethodDelete (record_path d ID) None in
  pure (apiErr (http.resp_of res) (http.err_of res)).

End Client.

(** ** Runs of the pagination loop

    [fetch_pages n] is what [n] consecutive calls of [ListPage] do when each
    is given the continuation the one before returned: the records
    appended so far, the last continuation and the world afterwards.
    [pages_continue n] says that each of these calls returned no error and a
    continuation that the loop of [List] reads as one. *)

Section Runs.

Context {P : Platform}.

Fixpoint fetch_pages (n : nat) (d : domainAction) (recType : DnsRecordType)
    (recName : string) (allRecords : slice DnsRecord) (nextPageUrl : string)
    (nextPage : Z) (w : World) : slice DnsRecord * string * Z * World :=
  match n with
  | O => (allRecords, nextPageUrl, nextPage, w)
  | S n' =>
      let '(pageRecords, nextPageUrl', nextPage', _, w') :=
        ListPage d recType recName nextPageUrl nextPage w in
      fetch_pages n' d recType recName (append allRecords (elems pageRecords))
        nextPageUrl' nextPage' w'
  end.

Fixpoint pages_continue (n : nat) (d : domainAction) (recType : DnsRecordType)
    (recName nextPageUrl : string) (nextPage : Z) (w : World) : bool :=
  match n with
  | O => true
  | S n' =>
      let '(_, nextPageUrl', nextPage', err, w') :=
        ListPage d recType recName nextPageUrl nextPage w in
      match err with
      | Some _ => false
      | None =>
          (nonempty nextPageUrl' || (0 <? nextPage'))
          && pages_continue n' d recType recName nextPageUrl' nextPage' w'
      end
  end.

End Runs.

(** A path that starts with one slash and not with two. *)
Definition single_leading_slash (p : string) : bool :=
  match p with
  | String c rest =>
      byte_eqb c slash
      && match rest with
         | String c' _ => negb (byte_eqb c' slash)
         | EmptyString => true
         end
  | EmptyString => false
  end.

(** The member of a JSON object written under a key. *)
Fixpoint member (k : string) (members : list (string * json.Value))
  : option json.Value :=
  match members with
  | [] => None
  | (k', v) :: members' => if String.eqb k k' then Some v else member k members'
  end.

(** ** The vocabulary of the statements *)

(** The buffer of [Clean] on a rooted path: a slash, then no second one. *)
Definition rooted_once (out : list ascii) : Prop :=
  match out with
  | c :: rest =>
      c = slash /\ match rest with c' :: _ => c' <> slash | [] => True end
  | [] => False
  end.

(** The error of [url.ParseQuery] on the locator given to [ListPaginated]. *)
Definition locator_error (recPageUrl : string) : option error :=
  if nonempty recPageUrl then (url.ParseQuery recPageUrl).2 else None.

(** The loop guard, once the page count is past one, is the continuation. *)
Definition continues (nextPageUrl : string) (nextPage : Z) : bool :=
  nonempty nextPageUrl || (0 <? nextPage).

(** What [List] returns after the loop has used up its page budget. *)
Definition limit_error (d : domainAction) (nextPageUrl : string) (nextPage : Z)
  : ApiError :=
  if nonempty nextPageUrl || (maxPages (h d) <? nextPage)
  then apiErr None (Some (page_limit_error d))
  else None.

(** The continuation as the specification words it: the locator, stripped,
    if there is one; else the page after the current one if pages remain;
    else none. *)
Definition stated_continuation (ret : DnsRecordPaginatedCollection) : string * Z :=
  match NextPageUrl ret with
  | Some (String c u) => (strings.TrimLeft (String c u) "/?", 0)
  | _ =>
      match CurrentPage ret, TotalPages ret with
      | Some currentPage, Some totalPages =>
          if currentPage <? totalPages then (EmptyString, currentPage + 1)
          else (EmptyString, 0)
      | _, _ => (EmptyString, 0)
      end
  end.

(** The parts of [ListPaginated]: the entry of the parsed locator that the
    range visits, the query built from it, and the reading of a reply. *)

Definition first_value (q : url.Values) (key : string) : option string :=
  match q !! key with
  | Some (v :: _) => Some v
  | _ => None
  end.

Section Parts.

Context {P : Platform}.

Definition locator_first (e : Env) (recPageUrl : string)
  : option (string * list string) :=
  if nonempty recPageUrl then range_first e (url.ParseQuery recPageUrl).1
  else None.

Definition page_params (first : option (string * list string))
    (recType : DnsRecordType) (recName : string) (recPage : Z) : url.Values :=
  let '(reqParams, hasRecPageUrl) := add_first (filter_params recType recName) first in
  if negb hasRecPageUrl && (1 <? recPage)
  then url.Add reqParams "page" (strconv.Itoa recPage)
  else reqParams.

Definition read_reply (res : http.Result) : DnsRecordPaginatedCollection * ApiError :=
  match res with
  | http.Failed _ err => (zero_collection, apiErr None (Some err))
  | http.Replied resp =>
      if (399 <? http.StatusCode resp) && (http.StatusCode resp <? 600) then
        (zero_collection,
         apiErr (Some resp)
           (Some (Errorf ("invalid response from API: "
                          +:+ fmt_d (http.StatusCode resp)))))
      else
        match http.Body resp with
        | (_, Some err) => (zero_collection, apiErr (Some resp) (Some err))
        | (body, None) =>
            ((Unmarshal_collection body).1,
             apiErr (Some resp) (Unmarshal_collection body).2)
        end
  end.

(** The request [doWithParams] hands to the transport at time [t]. *)
Definition signed_request (ch : helper) (reqMethod reqPath : string)
    (reqParams : url.Values) (reqBody : option json.Value) (t : Time)
  : http.Request :=
  let p := path.Join ["/"; reqPath] in
  let canonicalRequest := reqMethod +:+ " " +:+ p +:+ " " +:+ fmt_d (Time_Unix t) in
  {| http.Method := if nonempty reqMethod then reqMethod else "GET";
     http.URL := apiEndpoint ch +:+ p;
     http.RawQuery := reqParams;
     http.Header :=
       <["Authorization" :=
           ["Basic " +:+ http.basicAuth (authKey ch)
                           (getSignature canonicalRequest (authSecret ch))]]>
       (<["Date" := [Time_UTC_Format_RFC3339 t]]>
        (<["Accept" := ["application/json"]]>
         (<["Content-Type" := ["application/json"]]> ∅)));
     http.Payload := reqBody |}.

(** The key and value that the range over the parsed locator adds to the
    query, if it adds one. *)
Definition locator_pair (e : Env) (recPageUrl : string) : option (string * string) :=
  match locator_first e recPageUrl with
  | Some (k, v0 :: _) => if nonempty k && nonempty v0 then Some (k, v0) else None
  | _ => None
  end.

End Parts.

(** ** Scripted servers

    A platform for running the client: the [n]-th request is answered by
    [script n], a body is decoded by looking it up in [table], the clock
    stands at 2023-11-14T22:13:20Z, and a range visits the first entry of
    the map in key order. *)

Definition in_range_b (o : option Z) : bool :=
  match o with
  | Some z => (GoInt.min_int <=? z) && (z <=? GoInt.max_int)
  | None => true
  end.

Definition table_ok (table : list (string * DnsRecordPaginatedCollection)) : bool :=
  forallb (fun kv => in_range_b (CurrentPage kv.2) && in_range_b (TotalPages kv.2))
          table.

Definition decode_table (table : list (string * DnsRecordPaginatedCollection))
    (body : string) : DnsRecordPaginatedCollection * option error :=
  match find (fun kv => String.eqb kv.1 body) table with
  | Some kv => (kv.2, None)
  | None =>
      (zero_collection,
       Some (ForeignError "invalid character looking for beginning of value"))
  end.

Definition head_entry (e : nat) (m : url.Values) : option (string * list string) :=
  head (map_to_list m).

Lemma head_entry_elem (e : nat) (m : url.Values) k v :
  head_entry e m = Some (k, v) -> m !! k = Some v.
Proof.
  intros H. apply elem_of_map_to_list. by apply head_Some_elem_of.
Qed.

Lemma head_entry_empty (e : nat) (m : url.Values) :
  head_entry e m = None -> m = ∅.
Proof.
  unfold head_entry. intros H. apply map_to_list_empty_iff.
  by destruct (map_to_list m).
Qed.

Lemma in_range_b_spec o : in_range_b o = true -> in_range_opt o.
Proof.
  destruct o as [z|]; [|done]. cbn. unfold GoInt.in_range. lia.
Qed.

Lemma decode_table_in_range table :
  table_ok table = true ->
  forall body,
    in_range_opt (CurrentPage (decode_table table body).1)
    /\ in_range_opt (TotalPages (decode_table table body).1).
Proof.
  intros Hok body. unfold decode_table.
  destruct (find _ table) as [kv|] eqn:E; [|done].
  apply find_some in E as [Hin _].
  unfold table_ok in Hok. rewrite forallb_forall in Hok.
  apply Hok, andb_true_iff in Hin as [H1 H2].
  split; by apply in_range_b_spec.
Qed.

Definition scripted (script : nat -> http.Result)
    (table : list (string * DnsRecordPaginatedCollection))
    (Hok : table_ok table = true) : Platform :=
  {| Env := nat;
     Time := Z;
     time_Now := fun n => (1700000000, n);
     Time_Unix := fun t => t;
     Time_UTC_Format_RFC3339 := fun _ => "2023-11-14T22:13:20Z";
     NewRequest_error := fun _ _ => None;
     Client_Do := fun _ _ n => (script n, S n);
     Unmarshal_collection := decode_table table;
     range_first := head_entry;
     range_first_elem := head_entry_elem;
     range_first_empty := head_entry_empty;
     Unmarshal_in_range := decode_table_in_range table Hok |}.

Definition ok (body : string) : http.Result :=
  http.Replied {| http.StatusCode := 200; http.Body := (body, None) |}.

Definition status (code : Z) : http.Result :=
  http.Replied {| http.StatusCode := code; http.Body := (EmptyString, None) |}.

Definition host (n : string) : DnsRecord :=
  {| Type_ := Some "A"; ID := None; Name := n; Content := Some "192.0.2.1";
     Ttl := 600; Priority := None; Port := None; Weight := None |}.

(** A page with a next-page locator and no page numbers. *)
Definition page_with_locator (u : string) (n : string) : DnsRecordPaginatedCollection :=
  {| CurrentPage := None; TotalPages := None; TotalRecords := None;
     RowsPerPage := None; NextPageUrl := Some u; Data := Some [host n] |}.

(** A page with page numbers and no locator. *)
Definition page_numbered (current total : Z) (n : string)
  : DnsRecordPaginatedCollection :=
  {| CurrentPage := Some current; TotalPages := Some total; TotalRecords := None;
     RowsPerPage := None; NextPageUrl := None; Data := Some [host n] |}.

(** The service of the README, with the client [New] makes, and with a
    page budget of two. *)
Definition service : domainAction :=
  With (Dns (New "my-secret-api-key" "my-secret-api-secret" [])) 12345678.

Definition service_max (n : Z) : domainAction :=
  {| h := {| apiEndpoint := apiEndpoint (h service); authKey := authKey (h service);
             authSecret := authSecret (h service); c_Timeout := c_Timeout (h service);
             maxPages := n |};
     svcID := svcID service |}.

(** Three pages chained by locators; three pages chained by numbers. *)
Definition three_by_locator : Platform :=
  scripted (fun n => match n with
                     | O => ok "p1" | 1%nat => ok "p2" | _ => ok "p3" end)
    [("p1", page_with_locator "/?page=2" "a");
     ("p2", page_with_locator "/?page=3" "b");
     ("p3", page_numbered 3 3 "c")] eq_refl.

Definition three_by_number : Platform :=
  scripted (fun n => match n with
                     | O => ok "p1" | 1%nat => ok "p2" | _ => ok "p3" end)
    [("p1", page_numbered 1 3 "a");
     ("p2", page_numbered 2 3 "b");
     ("p3", page_numbered 3 3 "c")] eq_refl.

(** Every reply names a next page by a locator. *)
Definition always_locator (u : string) : Platform :=
  scripted (fun _ => ok "p") [("p", page_with_locator u "a")] eq_refl.

(** Every reply is the same numbered page. *)
Definition always_numbered (current total : Z)
    (Hok : table_ok [("p", page_numbered current total "a")] = true) : Platform :=
  scripted (fun _ => ok "p") [("p", page_numbered current total "a")] Hok.

(** The first page is served, the second request fails with [code]. *)
Definition second_fails (code : Z) : Platform :=
  scripted (fun n => match n with O => ok "p1" | _ => status code end)
    [("p1", page_with_locator "/?page=2" "a")] eq_refl.

(** Every request is answered with the status [code] and an empty body. *)
Definition always_status (code : Z) : Platform :=
  scripted (fun _ => status code) [] eq_refl.

Definition start {P : Platform} (e : Env) : World := {| env := e; wire := [] |}.

(** The values each request sent carries under a key. *)
Definition params (key : string) (l : list http.Request) : list (option (list string)) :=
  map (fun r => http.RawQuery r !! key) l.

(** ** The vocabulary of the further statements *)






(** The endpoint and the timeout that the options leave in a client. *)
Definition endpoint_of (opt : Option) : option string :=
  match opt with
  | ApiEndpoint ep => Some ep
  | Timeout _ => None
  end.

Definition timeout_of (opt : Option) : option Z :=
  match opt with
  | ApiEndpoint _ => None
  | Timeout to => Some to
  end.


(** * Facts *)

(** ** Integers, slices and strings *)

Lemma wrap_in_range z : GoInt.in_range (GoInt.wrap z).
Proof.
  unfold GoInt.in_range, GoInt.wrap, GoInt.min_int, GoInt.max_int.
  pose proof (Z.mod_pos_bound (z + 2 ^ 63) (2 ^ 64) eq_refl). lia.
Qed.

Lemma wrap_small z : GoInt.in_range z -> GoInt.wrap z = z.
Proof.
  unfold GoInt.in_range, GoInt.wrap, GoInt.min_int, GoInt.max_int. intros Hz.
  rewrite Z.mod_small; lia.
Qed.

(** [c + 1] does not overflow when [c] is strictly below another [int]. *)
Lemma add_one_below a b :
  GoInt.in_range a -> GoInt.in_range b -> a < b -> GoInt.add a 1 = a + 1.
Proof.
  unfold GoInt.add. intros Ha Hb Hlt. apply wrap_small.
  unfold GoInt.in_range, GoInt.min_int, GoInt.max_int in *. lia.
Qed.

Lemma add_one_small a : 0 <= a < GoInt.max_int -> GoInt.add a 1 = a + 1.
Proof.
  unfold GoInt.add. intros Ha. apply wrap_small.
  unfold GoInt.in_range, GoInt.min_int, GoInt.max_int in *. lia.
Qed.

Lemma elems_append {A} (s : slice A) xs : elems (append s xs) = elems s ++ xs.
Proof. destruct xs; simpl; [by rewrite app_nil_r | done]. Qed.


Lemma list_of_string_of_list l : list_of_string (string_of_list l) = l.
Proof. induction l; simpl; congruence. Qed.

Lemma list_of_string_length s : length (list_of_string s) = String.length s.
Proof. induction s; simpl; congruence. Qed.

Lemma nonempty_true s : nonempty s = true <-> s <> EmptyString.
Proof. destruct s; cbn; split; intros H; try done. Qed.

Lemma byte_eqb_eq a b : byte_eqb a b = true <-> a = b.
Proof. apply Ascii.eqb_eq. Qed.

(** What [TrimLeft] returns does not start with a character of the cutset. *)
Lemma TrimLeft_head s cutset :
  match strings.TrimLeft s cutset with
  | String c _ => strings.ContainsByte cutset c = false
  | EmptyString => True
  end.
Proof.
  induction s as [|c s IH]; simpl; [done|].
  destruct (strings.ContainsByte cutset c) eqn:Hc; [exact IH | exact Hc].
Qed.

(** [TrimLeft] removes a prefix made of characters of the cutset. *)
Lemma TrimLeft_strips s cutset :
  exists prefix,
    s = prefix +:+ strings.TrimLeft s cutset
    /\ Forall (fun c => strings.ContainsByte cutset c = true) (list_of_string prefix).
Proof.
  induction s as [|c s (prefix & Hs & Hp)]; [by exists EmptyString|].
  cbn [strings.TrimLeft]. destruct (strings.ContainsByte cutset c) eqn:Hc.
  - exists (String c prefix). split; [|by constructor].
    change (String c s = String c (prefix +:+ strings.TrimLeft s cutset)).
    by f_equal.
  - by exists EmptyString.
Qed.

(** The pieces [SplitByte] cuts hold no separator. *)
Lemma SplitByte_no_sep s sep :
  Forall (fun e => strings.ContainsByte e sep = false) (strings.SplitByte s sep).
Proof.
  induction s as [|c s IH]; simpl.
  - by constructor.
  - destruct (byte_eqb c sep) eqn:Hc.
    + by constructor.
    + destruct (strings.SplitByte s sep) as [|e es].
      * constructor; [simpl; by rewrite Hc | constructor].
      * inversion IH; subst. constructor; [simpl | done].
        by rewrite Hc.
Qed.

(** ** [path.Join]: a rooted path is cleaned to one leading slash *)

Lemma backtrack_ge out dotdot w :
  (dotdot < w)%nat -> (dotdot <= path.backtrack out dotdot w)%nat.
Proof.
  induction w as [|w IH]; intros Hlt; [lia|]. simpl.
  destruct (dotdot <? w)%nat eqn:Hd; simpl.
  - apply Nat.ltb_lt in Hd.
    destruct (negb (byte_eqb (nth w out slash) slash)); [by apply IH | lia].
  - apply Nat.ltb_ge in Hd. lia.
Qed.

Lemma rooted_once_take out n :
  rooted_once out -> (1 <= n)%nat -> rooted_once (take n out).
Proof.
  destruct out as [|c rest]; [done|]. intros [-> Hrest] Hn.
  destruct n as [|n]; [lia|]. simpl. split; [done|].
  destruct rest as [|c' rest']; destruct n; simpl; done.
Qed.

Lemma clean_element_rooted out e :
  rooted_once out ->
  strings.ContainsByte e slash = false ->
  rooted_once (path.clean_element true (out, 1%nat) e).1
  /\ (path.clean_element true (out, 1%nat) e).2 = 1%nat.
Proof.
  intros Hout He. unfold path.clean_element.
  destruct (String.eqb e "") eqn:E0; [done|].
  destruct (String.eqb e ".") eqn:E1; [done|].
  destruct (String.eqb e "..") eqn:E2.
  - destruct (1 <? length out)%nat eqn:Hlen; simpl; [|done].
    apply Nat.ltb_lt in Hlen. split; [|done].
    apply rooted_once_take; [done|]. by apply backtrack_ge.
  - simpl. split; [|done].
    destruct e as [|c e']; [done|]. simpl in He.
    apply orb_false_elim in He as [Hc _].
    destruct out as [|o [|o' rest]]; [done| |].
    + simpl. destruct Hout as [-> _]. split; [done|].
      intros ->. by rewrite (proj2 (byte_eqb_eq slash slash)) in Hc.
    + simpl. destruct Hout as [-> Ho']. done.
Qed.

Lemma fold_clean_rooted es out :
  rooted_once out ->
  Forall (fun e => strings.ContainsByte e slash = false) es ->
  rooted_once (fold_left (path.clean_element true) es (out, 1%nat)).1.
Proof.
  revert out. induction es as [|e es IH]; intros out Hout Hes; [done|].
  inversion Hes as [|? ? He Hes']; subst. cbn [fold_left].
  destruct (clean_element_rooted out e Hout He) as [H1 H2].
  destruct (path.clean_element true (out, 1%nat) e) as [out' dd].
  simpl in *. subst dd. by apply IH.
Qed.

Lemma rooted_once_single out :
  rooted_once out -> single_leading_slash (string_of_list out) = true.
Proof.
  destruct out as [|c [|c' rest]]; [done| |]; simpl.
  - intros [-> _]. done.
  - intros [-> Hc']. simpl.
    destruct (byte_eqb c' slash) eqn:E; [|done].
    by apply byte_eqb_eq in E.
Qed.

Lemma Join_root_eq p : path.Join ["/"; p] = path.Clean (String slash (String slash p)).
Proof.
  unfold path.Join. simpl. unfold path.join_step. simpl. reflexivity.
Qed.

(** Whatever the relative path, [path.Join("/", p)] begins with exactly
    one slash. *)
Lemma Join_single_leading_slash p :
  single_leading_slash (path.Join ["/"; p]) = true.
Proof.
  rewrite Join_root_eq. unfold path.Clean.
  change (byte_eqb slash slash) with true. cbv iota.
  pose proof (fold_clean_rooted (strings.SplitByte (String slash p) slash) [slash]) as H.
  destruct (fold_left (path.clean_element true)
              (strings.SplitByte (String slash p) slash) ([slash], 1%nat))
    as [out dd] eqn:E.
  cbn [fst] in H.
  assert (Hout : rooted_once out).
  { apply H; [done | apply SplitByte_no_sep]. }
  destruct out as [|c rest]; [done|]. simpl (length _ =? 0)%nat. cbv iota.
  by apply rooted_once_single.
Qed.

(** ** The signer *)

(** One byte is written as two lowercase digits that read back as it. *)
Lemma hex_byte (v : ascii) :
  let hi := hex.digit (Z.shiftr (byte_val v) 4) in
  let lo := hex.digit (Z.land (byte_val v) 15) in
  hex.is_lower_hex hi = true /\ hex.is_lower_hex lo = true
  /\ hex.Decode [hi; lo] = Some [v].
Proof.
  destruct v as [[] [] [] [] [] [] [] []]; vm_compute; done.
Qed.

Lemma hex_Encode_lower src :
  Forall (fun c => hex.is_lower_hex c = true) (hex.Encode src).
Proof.
  induction src as [|v src IH]; simpl; [constructor|].
  destruct (hex_byte v) as (Hhi & Hlo & _). by repeat constructor.
Qed.

Lemma hex_Encode_length src : length (hex.Encode src) = (2 * length src)%nat.
Proof. induction src as [|v src IH]; simpl; [done | rewrite IH; lia]. Qed.

Lemma hex_Decode_Encode src : hex.Decode (hex.Encode src) = Some src.
Proof.
  induction src as [|v src IH]; [done|].
  destruct (hex_byte v) as (_ & _ & Hv).
  cbn [hex.Encode hex.Decode] in *. rewrite IH.
  destruct (hex.fromHexChar (hex.digit (Z.shiftr (byte_val v) 4))) as [a|];
    [|discriminate].
  destruct (hex.fromHexChar (hex.digit (Z.land (byte_val v) 15))) as [b|];
    [|discriminate].
  congruence.
Qed.

Lemma be_bytes_length n z : length (sha1.be_bytes n z) = n.
Proof. induction n; simpl; congruence. Qed.

Lemma sha1_Sum_length data : length (sha1.Sum data) = sha1.Size.
Proof.
  unfold sha1.Sum. rewrite length_map, !length_app, !be_bytes_length. done.
Qed.

(** The object that [hmac.New], [Write] and [Sum] thread computes the keyed
    hash of RFC 2104. *)
Lemma hmac_object_is_HMAC key text :
  hmac.Sum (hmac.Write (hmac.New key) text) [] = hmac.HMAC_SHA1 key text.
Proof. unfold hmac.Sum, hmac.Write, hmac.New, hmac.HMAC_SHA1. reflexivity. Qed.

Lemma hmac_length key text : length (hmac.HMAC_SHA1 key text) = 20%nat.
Proof. unfold hmac.HMAC_SHA1. apply sha1_Sum_length. Qed.

(** C7. For every message and key, the signature is the lowercase
    hexadecimal encoding of the HMAC-SHA1 of the message keyed by the
    secret: it is made of the digits [0-9a-f] only, it has 40 of them, and
    it decodes to the keyed hash of RFC 2104 over SHA-1.  [getSignature] is
    a function of the message and the key alone: it neither reads nor
    changes the world, so equal arguments give equal signatures. *)
Theorem getSignature_is_hex_hmac_sha1 (message key : string) :
  hex.DecodeString (getSignature message key)
    = Some (hmac.HMAC_SHA1 (list_of_string key) (list_of_string message))
  /\ Forall (fun c => hex.is_lower_hex c = true)
            (list_of_string (getSignature message key))
  /\ String.length (getSignature message key) = 40%nat.
Proof.
  unfold getSignature, hex.DecodeString, hex.EncodeToString.
  rewrite hmac_object_is_HMAC, list_of_string_of_list. split; [|split].
  - apply hex_Decode_Encode.
  - apply hex_Encode_lower.
  - rewrite <- list_of_string_length, list_of_string_of_list,
      hex_Encode_length, hmac_length. done.
Qed.

(** The test cases 1 and 2 of RFC 2202, and the digest of "abc". *)
Example getSignature_rfc2202 :
  getSignature "what do ya want for nothing?" "Jefe"
    = "effcdf6ae5eb2fa2d27416d5f184df9c259a7c79"
  /\ hex.EncodeToString
       (hmac.HMAC_SHA1 (repeat (byte_of 11) 20) (list_of_string "Hi There"))
     = "b617318655057264e28bc0b6fb378c8ef146be00"
  /\ hex.EncodeToString (sha1.Sum (list_of_string "abc"))
     = "a9993e364706816aba3e25717850c26c9cd0d89d".
Proof. repeat split; vm_compute; reflexivity. Qed.

(** ** The JSON shape of a record *)

(** C6. A record is written as an object whose members are, in order,
    those of its fields that are set.  [name] and [ttl] are always members;
    [type], [id], [content], [priority], [port] and [weight] are members
    exactly when they are set, with their value, and no member is ever
    [null].  So a record with no optional field set is written with the two
    keys [name] and [ttl] and nothing else. *)
Theorem Marshal_DnsRecord_omits_absent (r : DnsRecord) :
  let members := json.encode_struct (DnsRecord_fields r) in
  Marshal_DnsRecord (Some r) = json.Object members
  /\ member "name" members = Some (json.Str (Name r))
  /\ member "ttl" members = Some (json.Number (Ttl r))
  /\ member "type" members = json.Str <$> Type_ r
  /\ member "id" members = json.Number <$> ID r
  /\ member "content" members = json.Str <$> Content r
  /\ member "priority" members = json.Number <$> Priority r
  /\ member "port" members = json.Number <$> Port r
  /\ member "weight" members = json.Number <$> Weight r
  /\ Forall (fun kv => kv.2 <> json.Null) members
  /\ json.keys (Marshal_DnsRecord
                  (Some {| Type_ := None; ID := None; Name := Name r;
                           Content := None; Ttl := Ttl r; Priority := None;
                           Port := None; Weight := None |}))
     = ["name"; "ttl"].
Proof.
  destruct r as [ty id nm co tt pr po we].
  destruct ty, id, co, pr, po, we; cbn;
    repeat split; repeat constructor; discriminate.
Qed.

Example Marshal_DnsRecord_examples :
  Marshal_DnsRecord
    (Some {| Type_ := None; ID := None; Name := "host1"; Content := None;
             Ttl := 600; Priority := None; Port := None; Weight := None |})
  = json.Object [("name", json.Str "host1"); ("ttl", json.Number 600)]
  /\ Marshal_DnsRecord
       (Some {| Type_ := Some "MX"; ID := None; Name := ""; Content := Some "mail";
                Ttl := 0; Priority := Some 0; Port := None; Weight := None |})
     = json.Object [("type", json.Str "MX"); ("name", json.Str "");
                    ("content", json.Str "mail"); ("ttl", json.Number 0);
                    ("priority", json.Number 0)].
Proof. split; reflexivity. Qed.

(** ** The request executor *)

Section ClientFacts.

Context {P : Platform}.

Lemma doWithParams_unfold ch reqMethod reqPath reqParams reqBody w :
  doWithParams ch reqMethod reqPath reqParams reqBody w =
  let t := (time_Now (env w)).1 in
  let e := (time_Now (env w)).2 in
  match NewRequest_error reqMethod (apiEndpoint ch +:+ path.Join ["/"; reqPath]) with
  | Some err => (http.Failed None err, {| env := e; wire := wire w |})
  | None =>
      let r := signed_request ch reqMethod reqPath reqParams reqBody t in
      ((Client_Do (c_Timeout ch) r e).1,
       {| env := (Client_Do (c_Timeout ch) r e).2; wire := wire w ++ [r] |})
  end.
Proof.
  unfold doWithParams, bind, now, NewRequest, pure, c_Do.
  destruct (time_Now (env w)) as [t e]. cbn [fst snd env wire].
  destruct (NewRequest_error _ _); [reflexivity|].
  unfold signed_request, http.SetBasicAuth, http.Header_Set, http.set_RawQuery.
  cbn [http.Method http.URL http.RawQuery http.Header http.Payload].
  destruct (Client_Do _ _ _). reflexivity.
Qed.

(** [doWithParams] hands the transport at most one request, and exactly
    one when [http.NewRequest] accepts the method and the URL. *)
Lemma doWithParams_wire ch reqMethod reqPath reqParams reqBody w :
  wire (doWithParams ch reqMethod reqPath reqParams reqBody w).2 =
  match NewRequest_error reqMethod (apiEndpoint ch +:+ path.Join ["/"; reqPath]) with
  | Some _ => wire w
  | None =>
      wire w ++ [signed_request ch reqMethod reqPath reqParams reqBody
                   (time_Now (env w)).1]
  end.
Proof.
  rewrite doWithParams_unfold. cbv zeta.
  destruct (NewRequest_error _ _); reflexivity.
Qed.

(** C8. For every call of the request executor: the path it uses begins
    with exactly one slash; if [http.NewRequest] refuses the request
    nothing is sent; otherwise exactly one request is sent, to the endpoint
    followed by that path, with the query parameters and the body given,
    the headers [Content-Type: application/json], [Accept:
    application/json] and [Date] (the RFC 3339 form, in UTC, of the instant
    [t] read from the clock), and basic authentication whose user name is
    the auth key and whose password is the signature, under the auth
    secret, of the message [METHOD path unix(t)] for the same [t]. *)
Theorem doWithParams_signs_request ch reqMethod reqPath reqParams reqBody w :
  let t := (time_Now (env w)).1 in
  let p := path.Join ["/"; reqPath] in
  let canonicalRequest := reqMethod +:+ " " +:+ p +:+ " " +:+ fmt_d (Time_Unix t) in
  let out := doWithParams ch reqMethod reqPath reqParams reqBody w in
  single_leading_slash p = true
  /\ match NewRequest_error reqMethod (apiEndpoint ch +:+ p) with
     | Some err => out.1 = http.Failed None err /\ wire out.2 = wire w
     | None =>
         exists r, wire out.2 = wire w ++ [r]
           /\ http.Method r = (if nonempty reqMethod then reqMethod else "GET")
           /\ http.URL r = apiEndpoint ch +:+ p
           /\ http.RawQuery r = reqParams
           /\ http.Payload r = reqBody
           /\ http.Header r !! "Content-Type" = Some ["application/json"]
           /\ http.Header r !! "Accept" = Some ["application/json"]
           /\ http.Header r !! "Date" = Some [Time_UTC_Format_RFC3339 t]
           /\ http.Header r !! "Authorization"
              = Some ["Basic " +:+ http.basicAuth (authKey ch)
                        (getSignature canonicalRequest (authSecret ch))]
     end.
Proof.
  cbv zeta. split; [apply Join_single_leading_slash|].
  rewrite doWithParams_unfold. cbv zeta.
  destruct (NewRequest_error _ _) as [err|]; [done|].
  eexists. split; [reflexivity|].
  unfold signed_request.
  cbn [http.Method http.URL http.RawQuery http.Header http.Payload].
  repeat split; by simplify_map_eq.
Qed.

End ClientFacts.

(** ** One page *)

Section PageFacts.

Context {P : Platform}.

Lemma ListPaginated_unfold d recType recName recPageUrl recPage w :
  ListPaginated d recType recName recPageUrl recPage w =
  match locator_error recPageUrl with
  | Some err => ((zero_collection, apiErr None (Some err)), w)
  | None =>
      let out :=
        doWithParams (h d) http.MethodGet (record_collection_path d)
          (page_params (locator_first (env w) recPageUrl) recType recName recPage)
          None w in
      (read_reply out.1, out.2)
  end.
Proof.
  unfold ListPaginated, locator_error, locator_first, page_params, bind, pure, range.
  destruct (nonempty recPageUrl).
  - destruct (url.ParseQuery recPageUrl) as [vals [err|]]; cbn [fst snd]; [reflexivity|].
    destruct (add_first _ _) as [q has].
    destruct (doWithParams _ _ _ _ _ _) as [[resp|resp err] w']; cbn [fst snd read_reply].
    + destruct (_ && _); [reflexivity|].
      destruct (http.Body resp) as [body [err|]]; [reflexivity|].
      destruct (Unmarshal_collection body) as [ret [err|]]; reflexivity.
    + reflexivity.
  - cbn [fst snd].
    destruct (add_first _ _) as [q has].
    destruct (doWithParams _ _ _ _ _ _) as [[resp|resp err] w']; cbn [fst snd read_reply].
    + destruct (_ && _); [reflexivity|].
      destruct (http.Body resp) as [body [err|]]; [reflexivity|].
      destruct (Unmarshal_collection body) as [ret [err|]]; reflexivity.
    + reflexivity.
Qed.

(** The page numbers of a collection read without error are [int]s. *)
Lemma read_reply_in_range res :
  (read_reply res).2 = None ->
  in_range_opt (CurrentPage (read_reply res).1)
  /\ in_range_opt (TotalPages (read_reply res).1).
Proof.
  destruct res as [resp|resp err]; cbn [read_reply]; [|done].
  destruct (_ && _); [done|].
  destruct (http.Body resp) as [body [err|]]; [done|].
  intros _. apply Unmarshal_in_range.
Qed.

(** A page is read without error only from a request that was sent:
    exactly one, with the query [page_params] builds. *)
Lemma ListPaginated_ok_wire d recType recName recPageUrl recPage w :
  (ListPaginated d recType recName recPageUrl recPage w).1.2 = None ->
  wire (ListPaginated d recType recName recPageUrl recPage w).2 =
  wire w ++ [signed_request (h d) http.MethodGet (record_collection_path d)
               (page_params (locator_first (env w) recPageUrl) recType recName recPage)
               None (time_Now (env w)).1].
Proof.
  rewrite ListPaginated_unfold.
  destruct (locator_error recPageUrl); [done|]. cbv zeta. cbn [fst snd].
  rewrite doWithParams_wire, doWithParams_unfold. cbv zeta.
  destruct (NewRequest_error _ _); [done|]. done.
Qed.

(** At most one request is sent for a page. *)
Lemma ListPaginated_wire d recType recName recPageUrl recPage w :
  wire (ListPaginated d recType recName recPageUrl recPage w).2 =
  match locator_error recPageUrl,
        NewRequest_error http.MethodGet
          (apiEndpoint (h d) +:+ path.Join ["/"; record_collection_path d]) with
  | None, None =>
      wire w ++ [signed_request (h d) http.MethodGet (record_collection_path d)
                   (page_params (locator_first (env w) recPageUrl) recType recName
                      recPage)
                   None (time_Now (env w)).1]
  | _, _ => wire w
  end.
Proof.
  rewrite ListPaginated_unfold.
  destruct (locator_error recPageUrl); [done|]. cbv zeta. cbn [fst snd].
  apply doWithParams_wire.
Qed.

Lemma ListPage_unfold d recType recName recPageUrl recPage w :
  ListPage d recType recName recPageUrl recPage w =
  let out := ListPaginated d recType recName recPageUrl recPage w in
  match out.1.2 with
  | Some e => ((None, EmptyString, 0, Some e), out.2)
  | None => ((Data out.1.1, (next_page out.1.1).1, (next_page out.1.1).2, None), out.2)
  end.
Proof.
  unfold ListPage, bind, pure.
  destruct (ListPaginated _ _ _ _ _ _) as [[ret [e|]] w']; cbn [fst snd]; [done|].
  destruct (next_page ret). reflexivity.
Qed.

Lemma ListPage_ok_wire d recType recName recPageUrl recPage w :
  (ListPage d recType recName recPageUrl recPage w).1.2 = None ->
  wire (ListPage d recType recName recPageUrl recPage w).2 =
  wire w ++ [signed_request (h d) http.MethodGet (record_collection_path d)
               (page_params (locator_first (env w) recPageUrl) recType recName recPage)
               None (time_Now (env w)).1].
Proof.
  rewrite ListPage_unfold. cbv zeta.
  destruct (ListPaginated _ _ _ _ _ _).1.2 eqn:E; [done|].
  intros _. cbn [snd]. by apply ListPaginated_ok_wire.
Qed.

(** The two branches of the [switch] exclude each other. *)
Lemma next_page_exclusive ret :
  (next_page ret).1 = EmptyString \/ (next_page ret).2 = 0.
Proof.
  unfold next_page.
  destruct (NextPageUrl ret) as [u|]; [destruct (nonempty u); [by right|]|];
    destruct (CurrentPage ret), (TotalPages ret); try (by left);
    destruct (_ <? _); by left.
Qed.

(** C10. A call of [ListPage] that returns no error returns at most one
    continuation: the locator is empty or the next page number is zero.
    A call that returns an error returns a nil record sequence, an empty
    locator and a zero page number with it. *)
Theorem ListPage_one_continuation d recType recName recPageUrl recPage w :
  match (ListPage d recType recName recPageUrl recPage w).1 with
  | (records, nextPageUrl, nextPage, None) =>
      nextPageUrl = EmptyString \/ nextPage = 0
  | (records, nextPageUrl, nextPage, Some _) =>
      records = None /\ nextPageUrl = EmptyString /\ nextPage = 0
  end.
Proof.
  rewrite ListPage_unfold. cbv zeta.
  destruct (ListPaginated _ _ _ _ _ _).1.2; cbn [fst]; [done|].
  apply next_page_exclusive.
Qed.

End PageFacts.

(** ** The pagination loop *)

Section ListFacts.

Context {P : Platform}.

Variables (d : domainAction) (recType : DnsRecordType) (recName : string).

(** [k] turns of the loop whose fetches all succeed with a continuation,
    ending on the page budget. *)
Lemma List_loop_run k : forall fuel allRecords nextPageUrl nextPage pageCount w,
  maxPages (h d) < GoInt.max_int ->
  1 <= pageCount ->
  pageCount + Z.of_nat k = maxPages (h d) + 1 ->
  (k <= fuel)%nat ->
  pageCount = 1 \/ continues nextPageUrl nextPage = true ->
  pages_continue k d recType recName nextPageUrl nextPage w = true ->
  List_loop fuel d recType recName allRecords nextPageUrl nextPage pageCount w =
  let '(all', url', page', w') :=
    fetch_pages k d recType recName allRecords nextPageUrl nextPage w in
  (Some (all', limit_error d url' page'), w').
Proof.
  induction k as [|k IH]; intros fuel allRecords nextPageUrl nextPage pageCount w
    Hmax Hcount Hsum Hfuel Hguard Hcont.
  - cbn [fetch_pages].
    assert (Hle : (pageCount <=? maxPages (h d)) = false) by (apply Z.leb_gt; lia).
    assert (Hlt : (maxPages (h d) <? pageCount) = true) by (apply Z.ltb_lt; lia).
    destruct fuel; cbn [List_loop]; rewrite Hle, andb_false_r, Hlt;
      unfold limit_error, pure; cbn [andb];
      destruct (nonempty nextPageUrl || (maxPages (h d) <? nextPage)); reflexivity.
  - destruct fuel as [|fuel]; [lia|]. cbn [List_loop fetch_pages].
    assert (Hg : ((pageCount =? 1) || nonempty nextPageUrl || (0 <? nextPage))
                 && (pageCount <=? maxPages (h d)) = true).
    { apply andb_true_iff. split; [|apply Z.leb_le; lia].
      destruct Hguard as [->|Hc]; [done|].
      unfold continues in Hc. rewrite <- orb_assoc, Hc. apply orb_true_r. }
    rewrite Hg. unfold bind. cbn [pages_continue] in Hcont.
    destruct (ListPage d recType recName nextPageUrl nextPage w)
      as [[[[recs url1] page1] [e|]] w1]; [discriminate|].
    apply andb_true_iff in Hcont as [Hc1 Hrest].
    rewrite add_one_small by lia.
    apply IH; try lia; [by right | done].
Qed.

(** Each fetch of such a run sends exactly one request. *)
Lemma fetch_pages_wire k : forall allRecords nextPageUrl nextPage w,
  pages_continue k d recType recName nextPageUrl nextPage w = true ->
  length (wire (fetch_pages k d recType recName allRecords nextPageUrl nextPage w).2)
  = (length (wire w) + k)%nat.
Proof.
  induction k as [|k IH]; intros allRecords nextPageUrl nextPage w Hcont.
  - cbn. lia.
  - cbn [fetch_pages pages_continue] in *.
    pose proof (ListPage_ok_wire d recType recName nextPageUrl nextPage w) as Hw.
    destruct (ListPage d recType recName nextPageUrl nextPage w)
      as [[[[recs url1] page1] [e|]] w1]; [discriminate|].
    apply andb_true_iff in Hcont as [_ Hrest].
    rewrite IH by done. cbn [fst snd] in Hw. rewrite Hw by done.
    rewrite length_app. cbn. lia.
Qed.

(** The records of a run are those of its pages, in the order fetched. *)
Lemma fetch_pages_elems k : forall allRecords nextPageUrl nextPage w,
  exists pages,
    length pages = k
    /\ elems (fetch_pages k d recType recName allRecords nextPageUrl nextPage w).1.1.1
       = elems allRecords ++ concat pages.
Proof.
  induction k as [|k IH]; intros allRecords nextPageUrl nextPage w.
  - exists []. cbn. by rewrite app_nil_r.
  - cbn [fetch_pages].
    destruct (ListPage d recType recName nextPageUrl nextPage w)
      as [[[[recs url1] page1] e] w1].
    destruct (IH (append allRecords (elems recs)) url1 page1 w1) as (pages & Hlen & Hel).
    exists (elems recs :: pages). split; [cbn; lia|].
    rewrite Hel, elems_append. cbn. by rewrite app_assoc.
Qed.

(** [k] turns whose fetches succeed with a continuation, then a fetch that
    fails while the page budget is not used up. *)
Lemma List_loop_fails k : forall fuel allRecords nextPageUrl nextPage pageCount w,
  maxPages (h d) <= GoInt.max_int ->
  1 <= pageCount ->
  pageCount + Z.of_nat k <= maxPages (h d) ->
  (k < fuel)%nat ->
  pageCount = 1 \/ continues nextPageUrl nextPage = true ->
  pages_continue k d recType recName nextPageUrl nextPage w = true ->
  let '(_, url', page', w') :=
    fetch_pages k d recType recName allRecords nextPageUrl nextPage w in
  forall e,
    (ListPage d recType recName url' page' w').1.2 = Some e ->
    List_loop fuel d recType recName allRecords nextPageUrl nextPage pageCount w
    = (Some (None, Some e), (ListPage d recType recName url' page' w').2).
Proof.
  induction k as [|k IH]; intros fuel allRecords nextPageUrl nextPage pageCount w
    Hmax Hcount Hsum Hfuel Hguard Hcont;
    (destruct fuel as [|fuel]; [lia|]);
    assert (Hg : ((pageCount =? 1) || nonempty nextPageUrl || (0 <? nextPage))
                 && (pageCount <=? maxPages (h d)) = true)
      by (apply andb_true_iff; split; [|apply Z.leb_le; lia];
          destruct Hguard as [->|Hc]; [done|];
          unfold continues in Hc; rewrite <- orb_assoc, Hc; apply orb_true_r).
  - cbn [fetch_pages]. intros e He.
    cbn [List_loop]. rewrite Hg. unfold bind, pure.
    destruct (ListPage d recType recName nextPageUrl nextPage w)
      as [[[[recs url1] page1] err] w1]. cbn [fst snd] in *. by subst err.
  - cbn [fetch_pages List_loop]. rewrite Hg. unfold bind.
    cbn [pages_continue] in Hcont.
    destruct (ListPage d recType recName nextPageUrl nextPage w)
      as [[[[recs url1] page1] [e|]] w1]; [discriminate|].
    apply andb_true_iff in Hcont as [Hc1 Hrest].
    rewrite add_one_small by lia.
    apply IH; try lia; [by right | done].
Qed.

(** At most one request is sent for a page. *)
Lemma ListPage_wire_le recPageUrl recPage w :
  (length (wire (ListPage d recType recName recPageUrl recPage w).2)
   <= length (wire w) + 1)%nat.
Proof.
  rewrite ListPage_unfold. cbv zeta.
  assert (Hw : (length (wire (ListPaginated d recType recName recPageUrl recPage w).2)
                <= length (wire w) + 1)%nat).
  { rewrite ListPaginated_wire.
    destruct (locator_error recPageUrl); [lia|].
    destruct (NewRequest_error _ _); [lia|]. rewrite length_app. cbn. lia. }
  by destruct (ListPaginated _ _ _ _ _ _).1.2.
Qed.

(** The loop returns within its page budget: with fuel for the pages left
    it gives a result, having sent no more requests than pages were left. *)
Lemma List_loop_terminates k : forall fuel allRecords nextPageUrl nextPage pageCount w,
  maxPages (h d) < GoInt.max_int ->
  1 <= pageCount ->
  maxPages (h d) + 1 <= pageCount + Z.of_nat k ->
  (k <= fuel)%nat ->
  exists res w',
    List_loop fuel d recType recName allRecords nextPageUrl nextPage pageCount w
    = (Some res, w')
    /\ (length (wire w') <= length (wire w) + k)%nat.
Proof.
  induction k as [|k IH]; intros fuel allRecords nextPageUrl nextPage pageCount w
    Hmax Hcount Hsum Hfuel.
  - assert (Hle : (pageCount <=? maxPages (h d)) = false) by (apply Z.leb_gt; lia).
    destruct fuel; cbn [List_loop]; rewrite Hle, andb_false_r;
      destruct ((maxPages (h d) <? pageCount)
                && (nonempty nextPageUrl || (maxPages (h d) <? nextPage)));
      unfold pure; eexists _, _; (split; [reflexivity | lia]).
  - destruct fuel as [|fuel]; [lia|]. cbn [List_loop].
    destruct (((pageCount =? 1) || nonempty nextPageUrl || (0 <? nextPage))
              && (pageCount <=? maxPages (h d))) eqn:Hg.
    + apply andb_true_iff in Hg as [_ Hle]. apply Z.leb_le in Hle.
      unfold bind, pure.
      pose proof (ListPage_wire_le nextPageUrl nextPage w) as Hw.
      destruct (ListPage d recType recName nextPageUrl nextPage w)
        as [[[[recs url1] page1] [e|]] w1]; cbn [snd] in Hw.
      * eexists _, _. split; [reflexivity | lia].
      * rewrite add_one_small by lia.
        destruct (IH fuel (append allRecords (elems recs)) url1 page1 (pageCount + 1) w1)
          as (res & w' & Hres & Hlen); try lia.
        exists res, w'. split; [exact Hres | lia].
    + destruct ((maxPages (h d) <? pageCount)
                && (nonempty nextPageUrl || (maxPages (h d) <? nextPage)));
        unfold pure; eexists _, _; (split; [reflexivity | lia]).
Qed.

End ListFacts.

(** ** [List] and [ListAll] *)

(** C1, as amended.  Let the page budget [N = maxPages] be at least one
    (and below the largest [int]), and let each of the first [N] fetches of
    a run succeed and return a continuation as [ListPage] decodes it: a
    locator that is not empty once its leading [/] and [?] are stripped, or
    a next page number above zero.  Then [List] (given fuel for [N] turns)
    performs exactly [N] fetches and returns the records appended from
    these [N] pages; and the error it returns is the page-limit error
    whenever the continuation of the last page is a locator or a page
    number above [N]. *)
Theorem List_stops_at_page_limit {P : Platform} d recType recName fuel w :
  let N := maxPages (h d) in
  1 <= N < GoInt.max_int ->
  (Z.to_nat N <= fuel)%nat ->
  pages_continue (Z.to_nat N) d recType recName EmptyString 0 w = true ->
  let '(allRecords, nextPageUrl, nextPage, w') :=
    fetch_pages (Z.to_nat N) d recType recName None EmptyString 0 w in
  exists err,
    List fuel d recType recName w = (Some (allRecords, err), w')
    /\ length (wire w') = (length (wire w) + Z.to_nat N)%nat
    /\ (nonempty nextPageUrl = true \/ N < nextPage ->
        err = Some {| err := page_limit_error d; resp := None |}).
Proof.
  intros N HN Hfuel Hcont. subst N.
  set (N := maxPages (h d)) in *.
  pose proof (List_loop_run d recType recName (Z.to_nat N) fuel None EmptyString 0 1 w)
    as Hrun.
  pose proof (fetch_pages_wire d recType recName (Z.to_nat N) None EmptyString 0 w Hcont)
    as Hwire.
  destruct (fetch_pages (Z.to_nat N) d recType recName None EmptyString 0 w)
    as [[[allRecords nextPageUrl] nextPage] w'].
  exists (limit_error d nextPageUrl nextPage).
  split; [|split].
  - unfold List. apply Hrun; [lia | lia | lia | lia | by left | done].
  - exact Hwire.
  - unfold limit_error. fold N. intros [Hu|Hp].
    + by rewrite Hu.
    + apply Z.ltb_lt in Hp. rewrite Hp, orb_true_r. done.
Qed.

(** With a page budget of two and a server whose every page names a next
    page by the locator [/?page=2], two fetches are made and the page-limit
    error is returned with the records of the two pages. *)
Lemma List_stops_at_page_limit_witness :
  let P := always_locator "/?page=2" in
  exists err,
    List 2 (service_max 2) "" "" (start 0%nat)
      = (Some (Some [host "a"; host "a"], err),
         (fetch_pages 2 (service_max 2) "" "" None "" 0 (start 0%nat)).2)
    /\ err = Some {| err := page_limit_error (service_max 2); resp := None |}.
Proof.
  intros P.
  pose proof (List_stops_at_page_limit (service_max 2) "" "" 2 (start 0%nat)) as H.
  cbv zeta in H.
  assert (H1 : 1 <= maxPages (h (service_max 2)) < GoInt.max_int)
    by (cbn; unfold GoInt.max_int; lia).
  assert (H2 : (Z.to_nat (maxPages (h (service_max 2))) <= 2)%nat) by (cbn; lia).
  specialize (H H1 H2 eq_refl).
  destruct (fetch_pages _ _ _ _ _ _ _ _) as [[[allRecords nextPageUrl] nextPage] w'] eqn:E.
  vm_compute in E. injection E as <- <- <- <-.
  destruct H as (err & HL & _ & Herr).
  exists err. split; [exact HL | apply Herr; by left].
Defined.

(** C1 fails as stated.  The client of [New] has the default budget of
    100 pages; the server answers every request with a page whose next-page
    locator is the non-empty string [/]; [List] performs one fetch, not
    100, and returns the records of that page with a nil error. *)
Lemma List_page_limit_counterexample :
  let P := always_locator "/" in
  let out := List 100 service "" "" (start 0%nat) in
  maxPages (h service) = 100
  /\ NextPageUrl (Unmarshal_collection "p").1 = Some "/"
  /\ out.1 = Some (Some [host "a"], None)
  /\ length (wire out.2) = 1%nat.
Proof. vm_compute. repeat split. Qed.

(** C5. In every run of [List], if a fetch returns an error (it is the
    fetch number [k + 1]: the [k] before it succeeded and continued, and
    the page budget, an [int], is not used up), then [List] returns a nil
    record sequence and that error, and stops there: the world it leaves
    is the one the failed fetch left, so no request follows. *)
Theorem List_propagates_fetch_error {P : Platform} d recType recName fuel w k :
  maxPages (h d) <= GoInt.max_int ->
  Z.of_nat k < maxPages (h d) ->
  (k < fuel)%nat ->
  pages_continue k d recType recName EmptyString 0 w = true ->
  let '(_, nextPageUrl, nextPage, w_k) :=
    fetch_pages k d recType recName None EmptyString 0 w in
  forall e,
    (ListPage d recType recName nextPageUrl nextPage w_k).1.2 = Some e ->
    List fuel d recType recName w
    = (Some (None, Some e), (ListPage d recType recName nextPageUrl nextPage w_k).2).
Proof.
  intros Hmax Hk Hfuel Hcont. unfold List.
  apply List_loop_fails; [lia | lia | lia | lia | by left | done].
Qed.

(** The first page is served with a locator to the second; the second
    request is answered with status 500: the record of the first page is
    dropped and the error of the second fetch is returned. *)
Lemma List_propagates_fetch_error_witness :
  let P := second_fails 500 in
  (List 100 service "" "" (start 0%nat)).1
  = Some (None,
          Some {| err := Errorf "invalid response from API: 500";
                  resp := Some {| http.StatusCode := 500;
                                  http.Body := (EmptyString, None) |} |}).
Proof.
  intros P.
  pose proof (List_propagates_fetch_error service "" "" 100 (start 0%nat) 1) as H.
  assert (H1 : maxPages (h service) <= GoInt.max_int)
    by (cbn; unfold GoInt.max_int; lia).
  assert (H2 : Z.of_nat 1 < maxPages (h service)) by (cbn; lia).
  assert (H3 : (1 < 100)%nat) by lia.
  specialize (H H1 H2 H3 eq_refl).
  destruct (fetch_pages _ _ _ _ _ _ _ _) as [[[allRecords nextPageUrl] nextPage] w1] eqn:E.
  vm_compute in E. injection E as <- <- <- <-.
  rewrite (H _ eq_refl). reflexivity.
Defined.

(** X1. [List] always returns, after at most [maxPages] fetches: with a
    page budget below the largest [int] and fuel for that many turns, it
    gives a result and has sent at most [maxPages] requests (none when the
    budget is zero or negative), whatever the server answers. *)
Lemma List_terminates {P : Platform} d recType recName fuel w :
  maxPages (h d) < GoInt.max_int ->
  (Z.to_nat (maxPages (h d)) <= fuel)%nat ->
  exists res w',
    List fuel d recType recName w = (Some res, w')
    /\ (length (wire w') <= length (wire w) + Z.to_nat (maxPages (h d)))%nat.
Proof.
  intros Hmax Hfuel. unfold List.
  apply List_loop_terminates; [done | lia | lia | done].
Qed.

(** C9. For every service scope, [ListAll] returns what [List] returns
    with an empty type filter and an empty name filter: the same records
    and the same error, after the same requests; and the filters then
    give a request neither [filters[type]] nor [filters[name]]. *)
Theorem ListAll_is_List_without_filters {P : Platform} fuel d w :
  ListAll fuel d w = List fuel d EmptyString EmptyString w
  /\ (ListAll fuel d w).1 = (List fuel d EmptyString EmptyString w).1
  /\ wire (ListAll fuel d w).2 = wire (List fuel d EmptyString EmptyString w).2
  /\ filter_params EmptyString EmptyString !! "filters[type]" = None
  /\ filter_params EmptyString EmptyString !! "filters[name]" = None.
Proof.
  unfold ListAll. repeat split; unfold filter_params, url.Add; by simplify_map_eq.
Qed.

(** ** The query of a page request *)

Section QueryFacts.

Context {P : Platform}.

Lemma filter_params_lookup recType recName :
  let base := filter_params recType recName in
  base !! "descending" = Some ["false"]
  /\ base !! "sortBy" = Some ["name"]
  /\ base !! "filters[type]"
     = (if nonempty recType then Some [type_filter recType] else None)
  /\ base !! "filters[name]" = (if nonempty recName then Some [recName] else None)
  /\ forall k, k <> "descending" -> k <> "sortBy" -> k <> "filters[type]" ->
               k <> "filters[name]" -> base !! k = None.
Proof.
  unfold filter_params, url.Add.
  destruct (nonempty recType), (nonempty recName); cbv zeta;
    repeat split; intros; by simplify_map_eq.
Qed.

Lemma first_value_Add q k v k' x :
  first_value q k' = Some x -> first_value (url.Add q k v) k' = Some x.
Proof.
  unfold first_value, url.Add. intros H.
  destruct (decide (k = k')) as [->|Hne].
  - rewrite lookup_insert_eq. destruct (q !! k') as [[|y ys]|]; try done.
  - by rewrite lookup_insert_ne.
Qed.

Lemma page_params_cases e recPageUrl recType recName recPage :
  page_params (locator_first e recPageUrl) recType recName recPage =
  match locator_pair e recPageUrl with
  | Some (k, v0) => url.Add (filter_params recType recName) k v0
  | None =>
      if 1 <? recPage
      then url.Add (filter_params recType recName) "page" (strconv.Itoa recPage)
      else filter_params recType recName
  end.
Proof.
  unfold page_params, locator_pair, add_first.
  destruct (locator_first e recPageUrl) as [[k [|v0 vs]]|]; cbn [negb andb]; try done.
  destruct (nonempty k && nonempty v0); done.
Qed.

(** The pair added comes from the locator parsed as a query string: a key
    that is not empty, and the first of its values, not empty either. *)
Lemma locator_pair_parsed e recPageUrl k v0 :
  locator_pair e recPageUrl = Some (k, v0) ->
  recPageUrl <> EmptyString /\ k <> EmptyString /\ v0 <> EmptyString
  /\ exists vs, (url.ParseQuery recPageUrl).1 !! k = Some (v0 :: vs).
Proof.
  unfold locator_pair, locator_first.
  destruct (nonempty recPageUrl) eqn:Hu; [|done].
  destruct (range_first e (url.ParseQuery recPageUrl).1) as [[k' [|v vs]]|] eqn:Hr;
    try done.
  destruct (nonempty k') eqn:Hk; [|done].
  destruct (nonempty v) eqn:Hv; [|done]. cbn. intros [= <- <-].
  apply nonempty_true in Hu, Hk, Hv. repeat split; try done.
  exists vs. by apply range_first_elem in Hr.
Qed.

(** The query of the one request [ListPaginated] sends, if it sends one. *)
Lemma ListPaginated_sends d recType recName recPageUrl recPage w :
  wire (ListPaginated d recType recName recPageUrl recPage w).2 =
  match locator_error recPageUrl,
        NewRequest_error http.MethodGet
          (apiEndpoint (h d) +:+ path.Join ["/"; record_collection_path d]) with
  | None, None =>
      wire w ++
      [signed_request (h d) http.MethodGet (record_collection_path d)
         match locator_pair (env w) recPageUrl with
         | Some (k, v0) => url.Add (filter_params recType recName) k v0
         | None =>
             if 1 <? recPage
             then url.Add (filter_params recType recName) "page" (strconv.Itoa recPage)
             else filter_params recType recName
         end
         None (time_Now (env w)).1]
  | _, _ => wire w
  end.
Proof. rewrite ListPaginated_wire, page_params_cases. reflexivity. Qed.

End QueryFacts.

(** C4, as amended.  The filters give every page request [descending]
    with the value [false], [sortBy] with the value [name], [filters[type]]
    with the type written as a one-element array ([type_filter]) exactly
    when a type is requested, and [filters[name]] with the name exactly
    when a name is requested, and nothing else.  [ListPaginated] sends no request when the locator it is
    given does not parse or [http.NewRequest] fails, and one request
    otherwise.  When the range over the parsed locator finds a key and a
    first value that are both non-empty (typically [page] and a number),
    the query is the filters' plus that value under that key, and no page
    number is added.  Otherwise (in particular on the first request, whose
    locator is empty) the query is the filters' plus [page] with the page
    number given, exactly when that number is above one.  In every query
    sent, [false], [name] and the requested filters are the first values
    of their keys. *)
Theorem ListPaginated_query {P : Platform} d recType recName recPageUrl recPage w :
  let out := ListPaginated d recType recName recPageUrl recPage w in
  let base := filter_params recType recName in
  (base !! "descending" = Some ["false"]
   /\ base !! "sortBy" = Some ["name"]
   /\ base !! "filters[type]"
      = (if nonempty recType then Some [type_filter recType] else None)
   /\ base !! "filters[name]" = (if nonempty recName then Some [recName] else None)
   /\ forall k, k <> "descending" -> k <> "sortBy" -> k <> "filters[type]" ->
                k <> "filters[name]" -> base !! k = None)
  /\ locator_pair (env w) EmptyString = None
  /\ match locator_error recPageUrl,
           NewRequest_error http.MethodGet
             (apiEndpoint (h d) +:+ path.Join ["/"; record_collection_path d]) with
     | None, None =>
         exists r, wire out.2 = wire w ++ [r]
           /\ match locator_pair (env w) recPageUrl with
              | Some (k, v0) =>
                  http.RawQuery r = url.Add base k v0
                  /\ k <> EmptyString /\ v0 <> EmptyString
                  /\ exists vs, (url.ParseQuery recPageUrl).1 !! k = Some (v0 :: vs)
              | None =>
                  http.RawQuery r
                  = if 1 <? recPage then url.Add base "page" (strconv.Itoa recPage)
                    else base
              end
           /\ first_value (http.RawQuery r) "descending" = Some "false"
           /\ first_value (http.RawQuery r) "sortBy" = Some "name"
           /\ (if nonempty recType
               then first_value (http.RawQuery r) "filters[type]"
                    = Some (type_filter recType)
               else True)
           /\ (if nonempty recName
               then first_value (http.RawQuery r) "filters[name]" = Some recName
               else True)
     | _, _ => wire out.2 = wire w
     end.
Proof.
  cbv zeta. pose proof (filter_params_lookup recType recName) as Hbase.
  cbv zeta in Hbase. split; [exact Hbase|]. split; [reflexivity|].
  rewrite ListPaginated_sends.
  destruct (locator_error recPageUrl); [done|].
  destruct (NewRequest_error _ _); [done|].
  eexists. split; [reflexivity|].
  unfold signed_request. cbn [http.RawQuery].
  destruct Hbase as (Hd & Hs & Ht & Hn & Hother).
  assert (Fd : first_value (filter_params recType recName) "descending" = Some "false")
    by (unfold first_value; by rewrite Hd).
  assert (Fs : first_value (filter_params recType recName) "sortBy" = Some "name")
    by (unfold first_value; by rewrite Hs).
  assert (Ft : if nonempty recType
               then first_value (filter_params recType recName) "filters[type]"
                    = Some (type_filter recType)
               else True)
    by (unfold first_value; rewrite Ht; by destruct (nonempty recType)).
  assert (Fn : if nonempty recName
               then first_value (filter_params recType recName) "filters[name]"
                    = Some recName
               else True)
    by (unfold first_value; rewrite Hn; by destruct (nonempty recName)).
  destruct (locator_pair (env w) recPageUrl) as [[k v0]|] eqn:Hpair.
  - apply locator_pair_parsed in Hpair as (_ & Hk & Hv & Hvs).
    repeat split; try done; try (by apply first_value_Add).
    + destruct (nonempty recType); [by apply first_value_Add | done].
    + destruct (nonempty recName); [by apply first_value_Add | done].
  - destruct (1 <? recPage).
    + repeat split; try done; try (by apply first_value_Add).
      * destruct (nonempty recType); [by apply first_value_Add | done].
      * destruct (nonempty recName); [by apply first_value_Add | done].
    + repeat split; done.
Qed.

(** C4 fails as stated.  The server chains three pages by the locators
    [/?page=2] and [/?page=3] and never reports a page number, so the
    numeric form never applies and [ListPage] returns the next page number
    zero; yet the second and third requests of [List] carry a [page]
    parameter. *)
Lemma ListPaginated_query_counterexample :
  let P := three_by_locator in
  let out := List 100 service "" "" (start 0%nat) in
  CurrentPage (Unmarshal_collection "p1").1 = None
  /\ (ListPage service "" "" "" 0 (start 0%nat)).1
     = (Some [host "a"], "page=2", 0, None)
  /\ out.1 = Some (Some [host "a"; host "b"; host "c"], None)
  /\ params "page" (wire out.2) = [None; Some ["2"]; Some ["3"]].
Proof. vm_compute. repeat split. Qed.

(** ** The continuation *)

Section ContinuationFacts.

Context {P : Platform}.

(** On page numbers that are [int]s the [switch] of [ListPage] computes
    the stated continuation: the addition does not overflow. *)
Lemma next_page_stated ret :
  in_range_opt (CurrentPage ret) -> in_range_opt (TotalPages ret) ->
  next_page ret = stated_continuation ret.
Proof.
  unfold next_page, stated_continuation. intros Hc Ht.
  assert (Hnum :
    match CurrentPage ret, TotalPages ret with
    | Some currentPage, Some totalPages =>
        if currentPage <? totalPages then (EmptyString, GoInt.add currentPage 1)
        else (EmptyString, 0)
    | _, _ => (EmptyString, 0)
    end =
    match CurrentPage ret, TotalPages ret with
    | Some currentPage, Some totalPages =>
        if currentPage <? totalPages then (EmptyString, currentPage + 1)
        else (EmptyString, 0)
    | _, _ => (EmptyString, 0)
    end).
  { destruct (CurrentPage ret) as [c|], (TotalPages ret) as [t|]; try done.
    destruct (c <? t) eqn:E; [|done]. apply Z.ltb_lt in E.
    by rewrite (add_one_below c t). }
  destruct (NextPageUrl ret) as [[|c u]|]; cbn [nonempty String.eqb negb]; done.
Qed.

Lemma ListPaginated_ok_in_range d recType recName recPageUrl recPage w :
  (ListPaginated d recType recName recPageUrl recPage w).1.2 = None ->
  in_range_opt (CurrentPage (ListPaginated d recType recName recPageUrl recPage w).1.1)
  /\ in_range_opt (TotalPages (ListPaginated d recType recName recPageUrl recPage w).1.1).
Proof.
  rewrite ListPaginated_unfold.
  destruct (locator_error recPageUrl); [done|]. cbv zeta. cbn [fst snd].
  apply read_reply_in_range.
Qed.

(** One turn of the loop that is not the first and has page budget left:
    the continuation alone decides whether a page is fetched, and it is
    what the fetch is given. *)
Lemma List_loop_turn d recType recName fuel allRecords nextPageUrl nextPage pageCount w :
  1 < pageCount <= maxPages (h d) ->
  maxPages (h d) < GoInt.max_int ->
  List_loop (S fuel) d recType recName allRecords nextPageUrl nextPage pageCount w =
  if continues nextPageUrl nextPage then
    let '(pageRecords, nextPageUrl', nextPage', err, w') :=
      ListPage d recType recName nextPageUrl nextPage w in
    match err with
    | Some _ => (Some (None, err), w')
    | None =>
        List_loop fuel d recType recName (append allRecords (elems pageRecords))
          nextPageUrl' nextPage' (pageCount + 1) w'
    end
  else (Some (allRecords, None), w).
Proof.
  intros Hcount Hmax. cbn [List_loop]. unfold continues.
  replace (pageCount =? 1) with false by (symmetry; apply Z.eqb_neq; lia).
  replace (pageCount <=? maxPages (h d)) with true by (symmetry; apply Z.leb_le; lia).
  replace (maxPages (h d) <? pageCount) with false by (symmetry; apply Z.ltb_ge; lia).
  cbn [orb andb]. rewrite andb_true_r.
  destruct (nonempty nextPageUrl || (0 <? nextPage)); [|reflexivity].
  unfold bind, pure.
  destruct (ListPage d recType recName nextPageUrl nextPage w)
    as [[[[recs u] p] [e|]] w']; [reflexivity|].
  by rewrite add_one_small by lia.
Qed.

(** Whatever entry the range visits, a request carries at most one key
    that the filters did not give it. *)
Lemma ListPaginated_one_extra_key d recType recName recPageUrl recPage w r k1 k2 :
  wire (ListPaginated d recType recName recPageUrl recPage w).2 = wire w ++ [r] ->
  k1 <> k2 ->
  filter_params recType recName !! k1 = None ->
  filter_params recType recName !! k2 = None ->
  http.RawQuery r !! k1 = None \/ http.RawQuery r !! k2 = None.
Proof.
  rewrite ListPaginated_sends. intros Hw Hne H1 H2.
  destruct (locator_error recPageUrl);
    [apply (f_equal length) in Hw; rewrite length_app in Hw; cbn in Hw; lia|].
  destruct (NewRequest_error _ _);
    [apply (f_equal length) in Hw; rewrite length_app in Hw; cbn in Hw; lia|].
  apply app_inj_tail in Hw as [_ <-]. unfold signed_request. cbn [http.RawQuery].
  assert (Hadd : forall k v,
             url.Add (filter_params recType recName) k v !! k1 = None
             \/ url.Add (filter_params recType recName) k v !! k2 = None).
  { intros k v. unfold url.Add.
    destruct (decide (k = k1)) as [->|Hk].
    - right. by rewrite lookup_insert_ne.
    - left. by rewrite lookup_insert_ne. }
  destruct (locator_pair (env w) recPageUrl) as [[k v0]|]; [apply Hadd|].
  destruct (1 <? recPage); [apply Hadd | by left].
Qed.

End ContinuationFacts.

(** C2, as amended.  When a page is read without error, [ListPage] returns
    its records and the continuation the specification states: the locator
    stripped of its leading [/] and [?], with page number zero, if the
    locator field is present and not empty (whatever the page numbers);
    else an empty locator and [currentPage + 1] if both numbers are present
    and [currentPage < totalPages]; else an empty locator and zero.  In a
    later turn of [List] with page budget left, a page is fetched exactly
    when that locator is not empty or that page number is above zero, by
    [ListPage] called with both; otherwise the loop stops with a nil error.
    A request for that page is sent unless the locator does not parse as a
    query string (or [http.NewRequest] fails); its query is the filters'
    plus one key of the parsed locator with the first of its values, when
    the range finds both non-empty; and otherwise (always so with an empty
    locator) plus [page] with the page number, exactly when that number is
    above one. *)
Theorem ListPage_continuation {P : Platform} d recType recName recPageUrl recPage w :
  let out := ListPaginated d recType recName recPageUrl recPage w in
  let ret := out.1.1 in
  let w1 := out.2 in
  let base := filter_params recType recName in
  locator_error EmptyString = None
  /\ locator_pair (env w1) EmptyString = None
  /\
  match out.1.2 with
  | Some e =>
      ListPage d recType recName recPageUrl recPage w
      = ((None, EmptyString, 0, Some e), w1)
  | None =>
      exists nextPageUrl nextPage,
        ListPage d recType recName recPageUrl recPage w
        = ((Data ret, nextPageUrl, nextPage, None), w1)
        /\ (nextPageUrl, nextPage) = stated_continuation ret
        /\ (forall fuel allRecords pageCount,
              1 < pageCount <= maxPages (h d) -> maxPages (h d) < GoInt.max_int ->
              List_loop (S fuel) d recType recName allRecords nextPageUrl nextPage
                pageCount w1 =
              if nonempty nextPageUrl || (0 <? nextPage) then
                let '(pageRecords, nextPageUrl', nextPage', err, w2) :=
                  ListPage d recType recName nextPageUrl nextPage w1 in
                match err with
                | Some _ => (Some (None, err), w2)
                | None =>
                    List_loop fuel d recType recName
                      (append allRecords (elems pageRecords))
                      nextPageUrl' nextPage' (pageCount + 1) w2
                end
              else (Some (allRecords, None), w1))
        /\ match locator_error nextPageUrl,
                 NewRequest_error http.MethodGet
                   (apiEndpoint (h d) +:+ path.Join ["/"; record_collection_path d]) with
           | None, None =>
               exists r,
                 wire (ListPaginated d recType recName nextPageUrl nextPage w1).2
                 = wire w1 ++ [r]
                 /\ match locator_pair (env w1) nextPageUrl with
                    | Some (k, v0) =>
                        http.RawQuery r = url.Add base k v0
                        /\ exists vs,
                             (url.ParseQuery nextPageUrl).1 !! k = Some (v0 :: vs)
                    | None =>
                        http.RawQuery r
                        = if 1 <? nextPage
                          then url.Add base "page" (strconv.Itoa nextPage)
                          else base
                    end
           | _, _ =>
               wire (ListPaginated d recType recName nextPageUrl nextPage w1).2
               = wire w1
           end
  end.
Proof.
  cbv zeta. split; [reflexivity|]. split; [reflexivity|].
  rewrite ListPage_unfold. cbv zeta.
  pose proof (ListPaginated_ok_in_range d recType recName recPageUrl recPage w) as Hrange.
  destruct (ListPaginated d recType recName recPageUrl recPage w) as [[ret [e|]] w1];
    cbn [fst snd] in *; [reflexivity|].
  destruct (Hrange eq_refl) as [Hc Ht].
  exists (next_page ret).1, (next_page ret).2.
  split; [reflexivity|]. split; [|split].
  - rewrite <- next_page_stated by done. by destruct (next_page ret).
  - intros fuel allRecords pageCount Hcount Hmax.
    by rewrite List_loop_turn.
  - rewrite ListPaginated_sends.
    destruct (locator_error (next_page ret).1); [done|].
    destruct (NewRequest_error _ _); [done|].
    eexists. split; [reflexivity|].
    unfold signed_request. cbn [http.RawQuery].
    destruct (locator_pair (env w1) (next_page ret).1) as [[k v0]|] eqn:Hpair; [|done].
    split; [done|]. by apply locator_pair_parsed in Hpair as (_ & _ & _ & Hvs).
Qed.

(** C2 fails as stated.  Every page names the next by the locator
    [/?page=2&limit=50], which is present and not empty; stripped, it
    parses to the two parameters [page=2] and [limit=50]; the request for
    the next page does not carry the two of them (by
    [ListPaginated_one_extra_key] it cannot, whichever the range visits
    first): here it carries [limit=50] and no [page]. *)
Lemma ListPage_continuation_counterexample :
  let P := always_locator "/?page=2&limit=50" in
  let out := List 2 (service_max 2) "" "" (start 0%nat) in
  NextPageUrl (Unmarshal_collection "p").1 = Some "/?page=2&limit=50"
  /\ (ListPage (service_max 2) "" "" "" 0 (start 0%nat)).1
     = (Some [host "a"], "page=2&limit=50", 0, None)
  /\ (url.ParseQuery "page=2&limit=50").1 !! "page" = Some ["2"]
  /\ (url.ParseQuery "page=2&limit=50").1 !! "limit" = Some ["50"]
  /\ params "page" (wire out.2) = [None; None]
  /\ params "limit" (wire out.2) = [None; Some ["50"]].
Proof. vm_compute. repeat split. Qed.

(** ** Mutations *)

(** [Delete] returns an error only when the transport does: a reply is
    never one, whatever its status. *)
Lemma Delete_error_is_transport_error {P : Platform} d ID w :
  (Delete d ID w).1
  = apiErr (http.resp_of (do (h d) http.MethodDelete (record_path d ID) None w).1)
           (http.err_of (do (h d) http.MethodDelete (record_path d ID) None w).1).
Proof.
  unfold Delete, bind, pure. by destruct (do _ _ _ _ _).
Qed.

(** C3, on the code.  The server answers the DELETE request with status
    404: [Delete] returns a nil error.  The same reply to the GET request
    of [ListPaginated] is returned as an error whose response has status
    404. *)
Lemma Delete_404_returns_nil :
  let P := always_status 404 in
  let out := Delete service 42 (start 0%nat) in
  map http.Method (wire out.2) = ["DELETE"]
  /\ map http.URL (wire out.2)
     = ["https://rest.active24.cz/v2/service/12345678/dns/record/42"]
  /\ out.1 = None
  /\ (ListPaginated service "" "" "" 0 (start 0%nat)).1.2
     = Some {| err := Errorf "invalid response from API: 404";
               resp := Some {| http.StatusCode := 404;
                               http.Body := (EmptyString, None) |} |}.
Proof. vm_compute. repeat split. Qed.

(** ** The construction of a client, and runs on scripted servers *)

Lemma apply_Options_maxPages opts c :
  maxPages (client_h (fold_left apply_Option opts c)) = maxPages (client_h c).
Proof.
  revert c. induction opts as [|o opts IH]; intros c; [done|].
  cbn [fold_left]. rewrite IH. by destruct o.
Qed.

(** Whatever the options, the client of [New] has a page budget of 100. *)
Lemma New_default_maxPages apiKey apiSecret opts :
  maxPages (client_h (New apiKey apiSecret opts)) = 100.
Proof. unfold New. by rewrite apply_Options_maxPages. Qed.

Example path_Join_examples :
  path.Join ["/"; "v2/service/12345678/dns/record"] = "/v2/service/12345678/dns/record"
  /\ path.Join ["/"; "//a/./b/../c/"] = "/a/c"
  /\ path.Join ["/"; ""] = "/"
  /\ path.Join ["/"; "../.."] = "/"
  /\ path.Clean "a/../../b/" = "../b"
  /\ path.Clean "a//b/.." = "a"
  /\ path.Clean "./" = ".".
Proof. repeat split; vm_compute; reflexivity. Qed.

Example ParseQuery_examples :
  url.ParseQuery "page=2" = ({["page" := ["2"]]}, None)
  /\ (url.ParseQuery "a=1&a=%41+b&c").1 !! "a" = Some ["1"; "A b"]
  /\ (url.ParseQuery "a=1&a=%41+b&c").1 !! "c" = Some [""]
  /\ (url.ParseQuery "page=%zz").2 = Some (EscapeError "%zz")
  /\ (url.ParseQuery "a=1;b=2").2
     = Some (Errorf "invalid semicolon separator in query")
  /\ strings.TrimLeft "/?page=2" "/?" = "page=2"
  /\ strings.TrimLeft "??//" "/?" = "".
Proof. repeat split; vm_compute; reflexivity. Qed.

(** Three pages chained by locators: three fetches, the records in the
    order served, a nil error; the same with three pages chained by page
    numbers, where the first request carries no [page] and the filters are
    on every request. *)
Example List_three_pages :
  (let P := three_by_locator in
   let out := List 100 service "" "" (start 0%nat) in
   out.1 = Some (Some [host "a"; host "b"; host "c"], None)
   /\ length (wire out.2) = 3%nat)
  /\ (let P := three_by_number in
      let out := List 100 service DnsRecordTypeCNAME "host1" (start 0%nat) in
      out.1 = Some (Some [host "a"; host "b"; host "c"], None)
      /\ params "page" (wire out.2) = [None; Some ["2"]; Some ["3"]]
      /\ params "filters[type]" (wire out.2)
         = repeat (Some [type_filter "CNAME"]) 3
      /\ params "filters[name]" (wire out.2) = repeat (Some ["host1"]) 3
      /\ params "descending" (wire out.2) = repeat (Some ["false"]) 3
      /\ params "sortBy" (wire out.2) = repeat (Some ["name"]) 3).
Proof. vm_compute. repeat split. Qed.

(** A page budget of two on the three numbered pages: two fetches, the
    page-limit error, the records of the two pages. *)
Example List_page_limit_by_number :
  let P := three_by_number in
  let out := List 2 (service_max 2) "" "" (start 0%nat) in
  out.1 = Some (Some [host "a"; host "b"],
                Some {| err := page_limit_error (service_max 2); resp := None |})
  /\ length (wire out.2) = 2%nat.
Proof. vm_compute. repeat split. Qed.

(** The comparison after the loop is [nextPage > maxPages]: when every
    reply is page 1 of 3, the run stops at a budget of two with next page
    number 2, which is not above the budget, and the error is nil. *)
Example List_page_limit_same_page :
  let P := always_numbered 1 3 eq_refl in
  let out := List 2 (service_max 2) "" "" (start 0%nat) in
  out.1 = Some (Some [host "a"; host "a"], None)
  /\ params "page" (wire out.2) = [None; Some ["2"]].
Proof. vm_compute. repeat split. Qed.

(** A budget of zero: no fetch, nil records, nil error. *)
Example List_no_budget :
  let P := always_locator "/?page=2" in
  List 0 (service_max 0) "" "" (start 0%nat) = (Some (None, None), start 0%nat).
Proof. vm_compute. reflexivity. Qed.

(** What [Create] sends for the record of the README. *)
Example Create_request :
  let P := always_status 200 in
  let r := {| Type_ := Some "CNAME"; ID := None; Name := "host1";
              Content := Some "host.example.com"; Ttl := 600; Priority := None;
              Port := None; Weight := None |} in
  let out := Create service (Some r) (start 0%nat) in
  out.1 = None
  /\ map http.Method (wire out.2) = ["POST"]
  /\ map http.URL (wire out.2)
     = ["https://rest.active24.cz/v2/service/12345678/dns/record"]
  /\ map http.Payload (wire out.2)
     = [Some (json.Object [("type", json.Str "CNAME"); ("name", json.Str "host1");
                           ("content", json.Str "host.example.com");
                           ("ttl", json.Number 600)])].
Proof. vm_compute. repeat split. Qed.

(** * Further facts *)

(** ** The resource paths are clean *)





















(** ** The mutations *)

Section MutationFacts.

Context {P : Platform}.


End MutationFacts.




(** ** More on one page *)

Section MorePageFacts.

Context {P : Platform}.



End MorePageFacts.


(** X7. How [ListPage] fails on what the transport returns, when the
    request is sent.  An error of the transport is returned as it is, but
    without the response that may have come with it.  A reply with a
    status from 400 to 599 is returned as the error [invalid response from
    API: <status>] together with that reply, whatever its body.  In both
    cases the records are nil, the locator empty and the page number
    zero. *)
Theorem ListPage_failures {P : Platform} d recType recName recPageUrl recPage w :
  let out := ListPage d recType recName recPageUrl recPage w in
  let req :=
    signed_request (h d) http.MethodGet (record_collection_path d)
      (page_params (locator_first (env w) recPageUrl) recType recName recPage)
      None (time_Now (env w)).1 in
  match locator_error recPageUrl,
        NewRequest_error http.MethodGet
          (apiEndpoint (h d) +:+ path.Join ["/"; record_collection_path d]) with
  | None, None =>
      match (Client_Do (c_Timeout (h d)) req (time_Now (env w)).2).1 with
      | http.Failed _ e =>
          out.1 = (None, EmptyString, 0, Some {| err := e; resp := None |})
      | http.Replied reply =>
          if (399 <? http.StatusCode reply) && (http.StatusCode reply <? 600)
          then out.1 = (None, EmptyString, 0,
                        Some {| err := Errorf ("invalid response from API: "
                                               +:+ fmt_d (http.StatusCode reply));
                                resp := Some reply |})
          else True
      end
  | Some e, _ =>
      out = ((None, EmptyString, 0, Some {| err := e; resp := None |}), w)
  | None, Some e =>
      out.1 = (None, EmptyString, 0, Some {| err := e; resp := None |})
      /\ wire out.2 = wire w
  end.
Proof.
  cbv zeta. rewrite ListPage_unfold. cbv zeta.
  rewrite ListPaginated_unfold.
  destruct (locator_error recPageUrl) as [e|]; [done|].
  cbv zeta. cbn [fst snd]. rewrite doWithParams_unfold. cbv zeta.
  destruct (NewRequest_error _ _) as [e|]; [done|].
  cbn [fst snd].
  destruct (Client_Do _ _ _).1 as [reply|resp e]; cbn [read_reply fst snd]; [|done].
  destruct ((399 <? http.StatusCode reply) && (http.StatusCode reply <? 600)); done.
Qed.

(** X6. [ListPaginated] returns a nil error only after it has sent its
    one request, the server has replied with a status outside 400 to 599,
    the body has been read and it has been decoded without error; the
    collection returned is then the decoded one.  With an error, the
    collection returned is the zero value, except for a decoding error,
    where it is what the decoder left. *)
Theorem ListPaginated_success {P : Platform} d recType recName recPageUrl recPage w :
  let out := ListPaginated d recType recName recPageUrl recPage w in
  let req :=
    signed_request (h d) http.MethodGet (record_collection_path d)
      (page_params (locator_first (env w) recPageUrl) recType recName recPage)
      None (time_Now (env w)).1 in
  let reply := (Client_Do (c_Timeout (h d)) req (time_Now (env w)).2).1 in
  match out.1.2 with
  | None =>
      wire out.2 = wire w ++ [req]
      /\ exists resp body,
           reply = http.Replied resp
           /\ (http.StatusCode resp <= 399 \/ 600 <= http.StatusCode resp)
           /\ http.Body resp = (body, None)
           /\ Unmarshal_collection body = (out.1.1, None)
  | Some a =>
      out.1.1 = zero_collection
      \/ exists resp body,
           reply = http.Replied resp
           /\ http.Body resp = (body, None)
           /\ Unmarshal_collection body = (out.1.1, Some (err a))
           /\ apiError_Response a = Some resp
  end.
Proof.
  cbv zeta. rewrite ListPaginated_unfold.
  destruct (locator_error recPageUrl) as [e|]; [by left|].
  cbv zeta. cbn [fst snd]. rewrite doWithParams_unfold. cbv zeta.
  destruct (NewRequest_error _ _) as [e|]; [by left|].
  cbn [fst snd wire].
  destruct (Client_Do _ _ _).1 as [resp|resp e]; cbn [read_reply fst snd]; [|by left].
  destruct ((399 <? http.StatusCode resp) && (http.StatusCode resp <? 600)) eqn:Hs;
    [by left|].
  destruct (http.Body resp) as [body [e|]] eqn:Hb; cbn [fst snd]; [by left|].
  destruct (Unmarshal_collection body) as [ret [e|]] eqn:Hu; cbn [fst snd apiErr].
  - right. exists resp, body. by repeat split.
  - split; [done|]. exists resp, body. repeat split; try done.
    apply andb_false_iff in Hs as [Hs|Hs]; [left; apply Z.ltb_ge in Hs; lia|].
    right. apply Z.ltb_ge in Hs. lia.
Qed.

(** ** More on the pagination loop *)

Section MoreListFacts.

Context {P : Platform}.

Variables (d : domainAction) (recType : DnsRecordType) (recName : string).



(** [j] turns whose fetches succeed with a continuation, then a fetch
    that succeeds without one. *)
Lemma List_loop_completes j : forall fuel allRecords nextPageUrl nextPage pageCount w,
  maxPages (h d) < GoInt.max_int ->
  1 <= pageCount ->
  pageCount + Z.of_nat j <= maxPages (h d) ->
  (j < fuel)%nat ->
  pageCount = 1 \/ continues nextPageUrl nextPage = true ->
  pages_continue j d recType recName nextPageUrl nextPage w = true ->
  let '(all_j, url_j, page_j, w_j) :=
    fetch_pages j d recType recName allRecords nextPageUrl nextPage w in
  let '(pageRecords, url', page', err, w') :=
    ListPage d recType recName url_j page_j w_j in
  err = None ->
  continues url' page' = false ->
  List_loop fuel d recType recName allRecords nextPageUrl nextPage pageCount w
  = (Some (append all_j (elems pageRecords), None), w').
Proof.
  induction j as [|j IH]; intros fuel allRecords nextPageUrl nextPage pageCount w
    Hmax Hcount Hsum Hfuel Hguard Hcont;
    (destruct fuel as [|fuel]; [lia|]);
    assert (Hg : ((pageCount =? 1) || nonempty nextPageUrl || (0 <? nextPage))
                 && (pageCount <=? maxPages (h d)) = true)
      by (apply andb_true_iff; split; [|apply Z.leb_le; lia];
          destruct Hguard as [->|Hc]; [done|];
          unfold continues in Hc; rewrite <- orb_assoc, Hc; apply orb_true_r).
  - cbn [fetch_pages List_loop]. rewrite Hg. unfold bind.
    destruct (ListPage d recType recName nextPageUrl nextPage w)
      as [[[[recs url1] page1] err] w1].
    intros -> Hstop.
    rewrite add_one_small by lia.
    unfold continues in Hstop. apply orb_false_elim in Hstop as [Hu Hp].
    destruct fuel; cbn [List_loop]; rewrite Hu, Hp;
      replace (pageCount + 1 =? 1) with false by (symmetry; apply Z.eqb_neq; lia);
      cbn [orb andb];
      replace (maxPages (h d) <? page1) with false
        by (symmetry; apply Z.ltb_ge; apply Z.ltb_ge in Hp; lia);
      rewrite andb_false_r; reflexivity.
  - cbn [pages_continue] in Hcont. cbn [fetch_pages List_loop].
    rewrite Hg. unfold bind.
    destruct (ListPage d recType recName nextPageUrl nextPage w)
      as [[[[recs url1] page1] [e|]] w1]; [discriminate|].
    apply andb_true_iff in Hcont as [Hc1 Hrest].
    rewrite add_one_small by lia.
    apply IH; try lia; [by right | done].
Qed.

End MoreListFacts.

(** On the server that always names a next page, with the default budget
    of 100 pages, [List] returns after no more than 100 requests. *)
Lemma List_terminates_witness :
  let P := always_locator "/?page=2" in
  exists res w',
    List 100 service "" "" (start 0%nat) = (Some res, w')
    /\ (length (wire w') <= 100)%nat.
Proof.
  intros P.
  assert (H1 : maxPages (h service) < GoInt.max_int)
    by (cbn; unfold GoInt.max_int; lia).
  assert (H2 : (Z.to_nat (maxPages (h service)) <= 100)%nat) by (cbn; lia).
  pose proof (List_terminates service "" "" 100 (start 0%nat) H1 H2) as H.
  destruct H as (res & w' & HL & Hlen).
  exists res, w'. split; [exact HL|]. cbn in Hlen. lia.
Defined.

(** X2. A run that ends on its own: if the first [j] fetches succeed with
    a continuation, the page budget allows one more, and that fetch
    succeeds and returns no continuation (an empty locator and a page
    number not above zero), then [List] returns a nil error and the records
    of the [j + 1] pages, appended in the order fetched, after exactly
    [j + 1] requests. *)
Theorem List_walks_all_pages {P : Platform} d recType recName fuel w j :
  maxPages (h d) < GoInt.max_int ->
  Z.of_nat j < maxPages (h d) ->
  (j < fuel)%nat ->
  pages_continue j d recType recName EmptyString 0 w = true ->
  let '(all_j, url_j, page_j, w_j) :=
    fetch_pages j d recType recName None EmptyString 0 w in
  let '(pageRecords, url', page', err, w') :=
    ListPage d recType recName url_j page_j w_j in
  err = None ->
  continues url' page' = false ->
  List fuel d recType recName w = (Some (append all_j (elems pageRecords), None), w')
  /\ length (wire w') = (length (wire w) + S j)%nat.
Proof.
  intros Hmax Hj Hfuel Hcont.
  pose proof (List_loop_completes d recType recName j fuel None EmptyString 0 1 w)
    as Hrun.
  pose proof (fetch_pages_wire d recType recName j None EmptyString 0 w Hcont) as Hwj.
  destruct (fetch_pages j d recType recName None EmptyString 0 w)
    as [[[all_j url_j] page_j] w_j].
  pose proof (ListPage_ok_wire d recType recName url_j page_j w_j) as Hw1.
  destruct (ListPage d recType recName url_j page_j w_j)
    as [[[[recs url'] page'] err] w'].
  intros -> Hstop. cbn [fst snd] in *. split.
  - unfold List. apply Hrun; [lia | lia | lia | lia | by left | done | done | done].
  - rewrite Hw1 by done. rewrite length_app, Hwj. cbn. lia.
Qed.

(** Three pages chained by locators are walked in three requests. *)
Lemma List_walks_all_pages_witness :
  let P := three_by_locator in
  List 100 service "" "" (start 0%nat)
  = (Some (Some [host "a"; host "b"; host "c"], None),
     (fetch_pages 3 service "" "" None "" 0 (start 0%nat)).2)
  /\ length (wire (fetch_pages 3 service "" "" None "" 0 (start 0%nat)).2) = 3%nat.
Proof.
  intros P.
  pose proof (List_walks_all_pages service "" "" 100 (start 0%nat) 2) as H.
  assert (H1 : maxPages (h service) < GoInt.max_int)
    by (cbn; unfold GoInt.max_int; lia).
  assert (H2 : Z.of_nat 2 < maxPages (h service)) by (cbn; lia).
  assert (H3 : (2 < 100)%nat) by lia.
  specialize (H H1 H2 H3 eq_refl).
  destruct (fetch_pages 2 _ _ _ _ _ _ _) as [[[all_j url_j] page_j] w_j] eqn:E.
  vm_compute in E. injection E as <- <- <- <-.
  destruct (ListPage _ _ _ _ _ _) as [[[[recs url'] page'] err] w'] eqn:E1.
  vm_compute in E1. injection E1 as <- <- <- <- <-.
  destruct (H eq_refl eq_refl) as [HL Hlen].
  split; [rewrite HL; vm_compute; reflexivity | vm_compute; reflexivity].
Defined.



(** X5. With a page budget of zero or less [List] sends nothing and
    returns nil records; the error is nil for a budget of zero, and the
    page-limit error for a negative budget. *)
Theorem List_without_budget {P : Platform} fuel d recType recName w :
  maxPages (h d) <= 0 ->
  List fuel d recType recName w
  = (Some (None,
           if maxPages (h d) <? 0
           then Some {| err := page_limit_error d; resp := None |} else None),
     w).
Proof.
  intros Hmax. unfold List.
  assert (Hle : (1 <=? maxPages (h d)) = false) by (apply Z.leb_gt; lia).
  assert (Hlt : (maxPages (h d) <? 1) = true) by (apply Z.ltb_lt; lia).
  destruct fuel; cbn [List_loop]; rewrite Hle, Hlt; cbn [andb orb nonempty String.eqb negb];
    unfold pure; by destruct (maxPages (h d) <? 0).
Qed.

Lemma List_without_budget_witness :
  let P := three_by_locator in
  List 5 (service_max 0) "" "" (start 0%nat) = (Some (None, None), start 0%nat)
  /\ List 5 (service_max (-1)) "" "" (start 0%nat)
     = (Some (None, Some {| err := page_limit_error (service_max (-1)); resp := None |}),
        start 0%nat).
Proof.
  intros P.
  pose proof (List_without_budget 5 (service_max 0) "" "" (start 0%nat)) as H0.
  pose proof (List_without_budget 5 (service_max (-1)) "" "" (start 0%nat)) as H1.
  split; [apply H0 | apply H1]; cbn; lia.
Defined.

(** ** The construction of a scoped handle *)

Lemma apply_Options_fields opts : forall c,
  let c' := fold_left apply_Option opts c in
  authKey (client_h c') = authKey (client_h c)
  /\ authSecret (client_h c') = authSecret (client_h c)
  /\ maxPages (client_h c') = maxPages (client_h c)
  /\ apiEndpoint (client_h c')
     = default (apiEndpoint (client_h c)) (last (omap endpoint_of opts))
  /\ c_Timeout (client_h c')
     = default (c_Timeout (client_h c)) (last (omap timeout_of opts)).
Proof.
  induction opts as [|o opts IH]; intros c; [done|].
  cbn [fold_left]. cbv zeta in *.
  destruct (IH (apply_Option c o)) as (Hk & Hs & Hm & He & Ht).
  rewrite Hk, Hs, Hm, He, Ht.
  destruct o as [ep|to]; cbn [omap list_omap endpoint_of timeout_of apply_Option client_h
                               authKey authSecret maxPages apiEndpoint c_Timeout];
    repeat split; try done.
  - rewrite last_cons. by destruct (last (omap endpoint_of opts)).
  - rewrite last_cons. by destruct (last (omap timeout_of opts)).
Qed.

(** X12. The handle [New(key, secret, opts...).Dns().With(id)] holds the
    key and the secret given, the service id given, and a page budget of
    100 whatever the options; its endpoint is that of the last
    [ApiEndpoint] option, or [https://rest.active24.cz] without one; its
    timeout is that of the last [Timeout] option, or ten seconds without
    one. *)
Theorem New_With_configuration apiKey apiSecret opts serviceID :
  let d := With (Dns (New apiKey apiSecret opts)) serviceID in
  svcID d = serviceID
  /\ authKey (h d) = apiKey
  /\ authSecret (h d) = apiSecret
  /\ maxPages (h d) = 100
  /\ apiEndpoint (h d)
     = default "https://rest.active24.cz" (last (omap endpoint_of opts))
  /\ c_Timeout (h d) = default (10 * 1000000000) (last (omap timeout_of opts)).
Proof.
  cbv zeta. unfold With, Dns, New. cbn [h svcID dns_h].
  split; [done|]. apply apply_Options_fields.
Qed.

(** ** Records as JSON *)



